(** * Speech-to-text service wrapper: model and verified properties

    Shallow embedding of [speech_to_text.py]: the Whisper service
    wrapper ([SpeechToTextService]), its lazy process-wide proxy
    ([_LazySTT] / [stt_service]) and the legacy one-argument function.

    Python floats are kept behind an arithmetic interface ([Num]); the
    Whisper module and the temp-file factory are interfaces too, so that
    every statement below holds for any implementation of them. *)

From Stdlib Require Import PrimFloat Uint63.
From stdpp Require Import gmap strings list.

Set Default Proof Using "Type*".
Set Warnings "-inexact-float".

(** ** Numbers *)

(** The arithmetic the code performs on Python numbers.  [num_zero]
    stands for both the int [0] and the float [0.0], [num_of_count] for
    the int-to-float conversion that [/] applies to [count]. *)
Class Num := {
  num : Type;
  num_zero : num;
  num_one : num;
  num_add : num → num → num;
  num_sub : num → num → num;
  num_div : num → num → num;
  num_of_count : nat → num;
}.

(** IEEE-754 binary64, the arithmetic CPython floats have (counts below
    2^63, which every list length is). *)
Definition float_Num : Num := {|
  num := float;
  num_zero := 0%float;
  num_one := 1%float;
  num_add := PrimFloat.add;
  num_sub := PrimFloat.sub;
  num_div := PrimFloat.div;
  num_of_count := λ n, PrimFloat.of_uint63 (Uint63.of_Z (Z.of_nat n));
|}.

(** ** Data *)

(** A Python [str] as its sequence of Unicode code points. *)
Abbreviation pystr := (list N).

(** The values the transcription options hold before [None] is filtered
    out. *)
Inductive PyVal :=
| PyNone
| PyStr (s : string)
| PyBool (b : bool).

#[export] Instance PyVal_eq_dec : EqDecision PyVal.
Proof. solve_decision. Defined.

(** One entry of Whisper's ["segments"] list: a dict, of which the code
    reads the keys ["end"] and ["no_speech_prob"]; [None] is a missing
    key. *)
Record Segment `{Num} := {
  seg_end : option num;
  no_speech_prob : option num;
}.

(** Modelled from the spec: the value [Model.transcribe] returns (the
    whisper package is not part of the repository),
    [{text, language?, segments?}]: ["text"] is always there, the code
    indexes it; ["language"] and ["segments"] are read with [.get], and
    [None] is a missing key. *)
Record TranscribeResult `{Num} := {
  r_text : pystr;
  r_language : option string;
  r_segments : option (list Segment);
}.

(** The metadata dict [transcribe_audio] returns, one field per key. *)
Record Metadata `{Num} := {
  md_language : string;
  md_duration : num;
  md_segments : nat;
  md_confidence : num;
}.

(** ** Exceptions and results *)

Inductive exn :=
| FileNotFoundError (path : string)
| PermissionError (path : string)
| AttributeError (msg : string)
| MemoryError
| RuntimeError (msg : string).

(** [isinstance(e, OSError)]. *)
Definition is_OSError (e : exn) : bool :=
  match e with
  | FileNotFoundError _ | PermissionError _ => true
  | _ => false
  end.

Inductive result (A : Type) :=
| Ok (a : A)
| Raise (e : exn).
Arguments Ok {A} a.
Arguments Raise {A} e.

Definition result_map {A B} (f : A → B) (r : result A) : result B :=
  match r with
  | Ok a => Ok (f a)
  | Raise e => Raise e
  end.

(** ** The host: environment variables and the filesystem *)

(** [locked] are the paths whose removal the operating system refuses. *)
Record World := {
  environ : gmap string string;
  files : gset string;
  locked : gset string;
}.

Definition remove_file (path : string) (w : World) : World :=
  {| environ := environ w; files := files w ∖ {[path]}; locked := locked w |}.

(** [os.unlink(path)]. *)
Definition unlink (path : string) (w : World) : World * result () :=
  if decide (path ∈ files w) then
    if decide (path ∈ locked w) then (w, Raise (PermissionError path))
    else (remove_file path w, Ok ())
  else (w, Raise (FileNotFoundError path)).

(** ** External collaborators *)

(** The whisper package: loading a model by size name and a loaded
    model's [transcribe]. Both may fail and may touch the host. *)
Class Whisper `{Num} := {
  Model : Type;
  whisper_load_model : string → World → World * result Model;
  model_transcribe :
    Model → string → gmap string PyVal → World → World * result TranscribeResult;
}.

(** [tempfile.NamedTemporaryFile(delete=False, suffix='.webm')]: creates
    a file and gives its name. *)
Class Tempfile := {
  NamedTemporaryFile : World → World * result string;
}.

(** The uploaded file object; [save dst] writes its bytes to [dst]. *)
Record FileStorage := {
  save : string → World → World * result ();
}.

(** ** Program state and the effect monad *)

Inductive LogMsg :=
| LoadingModel (size : string)
| ModelLoaded
| LoadFailed (e : exn)
| Transcribing (path : string)
| Completed (text : pystr)
| TranscriptionFailed (e : exn)
| Instantiating (model_name : string).

Inductive Event :=
| EvLoadModel (size : string)
| EvTranscribe (path : string) (options : gmap string PyVal)
| EvUnlink (path : string)
| EvInfo (msg : LogMsg)
| EvError (msg : LogMsg).

Definition is_load (ev : Event) : bool :=
  match ev with EvLoadModel _ => true | _ => false end.

Definition is_model_work (ev : Event) : bool :=
  match ev with EvLoadModel _ | EvTranscribe _ _ => true | _ => false end.

Definition count_loads (tr : list Event) : nat := length (filter is_load tr).

Record Service `{Whisper} := {
  model_size : string;
  model : option Model;
}.

Record _LazySTT `{Whisper} := {
  _service : option Service;
}.

(** The host, the module-level [stt_service] object, and the calls and
    log lines made so far (oldest first). *)
Record St `{Whisper} := {
  world : World;
  stt_service : _LazySTT;
  trace : list Event;
}.

Definition M `{Whisper} (A : Type) : Type := St → St * result A.

Section Monad.
Context `{Whisper}.

#[export] Instance M_ret : MRet M := λ A a s, (s, Ok a).

#[export] Instance M_bind : MBind M := λ A B k m s,
  match m s with
  | (s', Ok a) => k a s'
  | (s', Raise e) => (s', Raise e)
  end.

Definition raise {A} (e : exn) : M A := λ s, (s, Raise e).

Definition emit (ev : Event) : M () := λ s,
  ({| world := world s; stt_service := stt_service s; trace := trace s ++ [ev] |},
   Ok ()).

(** Run an external call on the host. *)
Definition on_world {A} (f : World → World * result A) : M A := λ s,
  let '(w, r) := f (world s) in
  ({| world := w; stt_service := stt_service s; trace := trace s |}, r).

(** [try: body / except Exception as e: handler e]. *)
Definition try_except {A} (body : M A) (handler : exn → M A) : M A := λ s,
  match body s with
  | (s', Ok a) => (s', Ok a)
  | (s', Raise e) => handler e s'
  end.

(** [try: body / except OSError: pass]. *)
Definition except_OSError_pass (body : M ()) : M () :=
  try_except body (λ e, if is_OSError e then mret () else raise e).

(** [try: body / finally: cleanup]: the cleanup always runs; the body's
    outcome stands unless the cleanup itself raises. *)
Definition try_finally {A} (body : M A) (cleanup : M ()) : M A := λ s,
  let '(s1, r) := body s in
  match cleanup s1 with
  | (s2, Ok _) => (s2, r)
  | (s2, Raise e) => (s2, Raise e)
  end.

Definition os_getenv (key : string) : M (option string) := λ s,
  (s, Ok (environ (world s) !! key)).

Definition os_path_exists (path : string) : M bool := λ s,
  (s, Ok (bool_decide (path ∈ files (world s)))).

Definition os_unlink (path : string) : M () :=
  emit (EvUnlink path);; on_world (unlink path).

Definition logger_info (msg : LogMsg) : M () := emit (EvInfo msg).
Definition logger_error (msg : LogMsg) : M () := emit (EvError msg).

End Monad.

(** State updates, for stating what a call leaves behind. *)
Definition set_world `{Whisper} (w : World) (s : St) : St :=
  {| world := w; stt_service := stt_service s; trace := trace s |}.

Definition logged `{Whisper} (evs : list Event) (s : St) : St :=
  {| world := world s; stt_service := stt_service s; trace := trace s ++ evs |}.

(** Unfolds the monad and the host calls in a goal. *)
Ltac unfold_m :=
  unfold except_OSError_pass, os_unlink, logger_info, logger_error,
    os_getenv, os_path_exists, try_except, try_finally,
    mbind, M_bind, mret, M_ret, raise, emit, on_world in *.

(** ** [str.strip()] *)

(** The code points CPython's [str.strip()] removes when called without
    an argument (its [Py_UNICODE_ISSPACE]). *)
Definition py_isspace (c : N) : bool :=
  ((0x09 <=? c) && (c <=? 0x0D) || (0x1C <=? c) && (c <=? 0x20)
   || (c =? 0x85) || (c =? 0xA0) || (c =? 0x1680)
   || (0x2000 <=? c) && (c <=? 0x200A)
   || (c =? 0x2028) || (c =? 0x2029) || (c =? 0x202F) || (c =? 0x205F)
   || (c =? 0x3000))%N.

Fixpoint lstrip (s : pystr) : pystr :=
  match s with
  | c :: s' => if py_isspace c then lstrip s' else s
  | [] => []
  end.

Definition rstrip (s : pystr) : pystr := reverse (lstrip (reverse s)).

Definition strip (s : pystr) : pystr := rstrip (lstrip s).

Definition is_space (c : N) : Prop := py_isspace c = true.

(** ** class SpeechToTextService *)

Module SpeechToTextService.
Section WithWhisper.
Context `{Whisper}.

(** Python truthiness of an optional string: [None] and [""] are false. *)
Definition truthy (s : option string) : bool :=
  match s with
  | Some s => negb (bool_decide (s = ""))
  | None => false
  end.

(** [env_model if env_model else (model_size or "tiny")]. *)
Definition resolve_model_size (env_model model_size : option string) : string :=
  if truthy env_model then default "" env_model
  else if truthy model_size then default "" model_size
  else "tiny".

Definition __init__ (model_size : option string) : M Service :=
  env_model ← os_getenv "WHISPER_MODEL";
  mret {| model_size := resolve_model_size env_model model_size; model := None |}.

(** Returns [self] after the assignment to [self.model]; when the load
    raises, the assignment has not happened. *)
Definition _load_model (self : Service) : M Service :=
  try_except
    (logger_info (LoadingModel (model_size self));;
     emit (EvLoadModel (model_size self));;
     m ← on_world (whisper_load_model (model_size self));
     logger_info ModelLoaded;;
     mret {| model_size := model_size self; model := Some m |})
    (λ e, logger_error (LoadFailed e);; raise e).

(** One iteration of the [for segment in segments] loop on the pair
    [(total_confidence, count)]. *)
Definition confidence_step (acc : num * nat) (segment : Segment) : num * nat :=
  match no_speech_prob segment with
  | Some p =>
      let confidence := num_sub num_one p in
      (num_add acc.1 confidence, S acc.2)
  | None => acc
  end.

Definition _calculate_confidence (segments : list Segment) : num :=
  match segments with
  | [] => num_zero
  | _ =>
      let '(total_confidence, count) :=
        fold_left confidence_step segments (num_zero, 0) in
      if bool_decide (0 < count)
      then num_div total_confidence (num_of_count count)
      else num_zero
  end.

(** The options dict once its [None] values are removed. *)
Definition build_options (language : option string) : gmap string PyVal :=
  let options : gmap string PyVal :=
    {[ "language" := from_option PyStr PyNone language;
       "task" := PyStr "transcribe";
       "fp16" := PyBool false ]} in
  filter (λ kv, kv.2 ≠ PyNone) options.

(** [self.model.transcribe(file_path, **options)]. *)
Definition call_transcribe (self : Service) (file_path : string)
    (options : gmap string PyVal) : M TranscribeResult :=
  match model self with
  | Some m =>
      emit (EvTranscribe file_path options);;
      on_world (model_transcribe m file_path options)
  | None => raise (AttributeError "transcribe")
  end.

(** [result.get("segments", [{}])[-1].get("end", 0) if result.get("segments") else 0]. *)
Definition duration_of (segments : option (list Segment)) : num :=
  match segments with
  | Some (s :: l) =>
      match last (s :: l) with
      | Some s_last => default num_zero (seg_end s_last)
      | None => num_zero
      end
  | _ => num_zero
  end.

Definition build_metadata (result : TranscribeResult) : Metadata := {|
  md_language := default "unknown" (r_language result);
  md_duration := duration_of (r_segments result);
  md_segments := length (default [] (r_segments result));
  md_confidence := _calculate_confidence (default [] (r_segments result));
|}.

Definition transcribe_audio (self : Service) (file_path : string)
    (language : option string) : M (pystr * Metadata) :=
  try_except
    (found ← os_path_exists file_path;
     if negb found then raise (FileNotFoundError file_path) else
     let options := build_options language in
     logger_info (Transcribing file_path);;
     result ← call_transcribe self file_path options;
     let transcribed_text := strip (r_text result) in
     let metadata := build_metadata result in
     logger_info (Completed (take 100 transcribed_text));;
     mret (transcribed_text, metadata))
    (λ e, logger_error (TranscriptionFailed e);; raise e).

(** [temp_file.flush()] has nothing to write (the upload goes through
    [audio_file.save]) and leaving the [with] block closes the handle
    without removing the file ([delete=False]); neither changes the
    state. *)
Definition transcribe_audio_file `{Tempfile} (self : Service)
    (audio_file : FileStorage) (language : option string) : M (pystr * Metadata) :=
  temp_file ← on_world NamedTemporaryFile;
  on_world (save audio_file temp_file);;
  try_finally
    (transcribe_audio self temp_file language)
    (except_OSError_pass (os_unlink temp_file)).

End WithWhisper.
End SpeechToTextService.

(** State after the [finally] block: the unlink was attempted and its
    [OSError], if any, dropped. *)
Definition after_cleanup `{Whisper} (name : string) (s : St) : St :=
  logged [EvUnlink name] (set_world (unlink name (world s)).1 s).

(** ** class _LazySTT and the module-level [stt_service] *)

Module _LazySTT.
Section WithWhisper.
Context `{Whisper}.

(** [self._service = None]: the handle as the module creates it. *)
Definition __init__ : _LazySTT := {| _service := None |}.

Definition get_service : M (option Service) := λ s,
  (s, Ok (_service (stt_service s))).

(** [self._service = svc]. *)
Definition set_service (svc : Service) : M () := λ s,
  ({| world := world s; stt_service := {| _service := Some svc |};
      trace := trace s |}, Ok ()).

(** The body of the [if] in [_ensure] up to the assignment: read the
    size, build the service, load its model. *)
Definition instantiate : M Service :=
  env_model ← os_getenv "WHISPER_MODEL";
  let model_name := default "tiny" env_model in
  logger_info (Instantiating model_name);;
  svc ← SpeechToTextService.__init__ (Some model_name);
  SpeechToTextService._load_model svc.

Definition _ensure : M () :=
  cur ← get_service;
  match cur with
  | None => svc ← instantiate; set_service svc
  | Some _ => mret ()
  end.

(** [getattr(self._service, item)] after [_ensure]: the service whose
    method the caller then invokes. *)
Definition __getattr__ : M Service :=
  _ensure;;
  cur ← get_service;
  match cur with
  | Some svc => mret svc
  | None => raise (AttributeError "NoneType")
  end.

End WithWhisper.
End _LazySTT.

(** [stt_service.transcribe_audio(file_path, language)]: the attribute
    access goes through [__getattr__], then the bound method runs. *)
Definition stt_transcribe_audio `{Whisper} (file_path : string)
    (language : option string) : M (pystr * Metadata) :=
  svc ← _LazySTT.__getattr__;
  SpeechToTextService.transcribe_audio svc file_path language.

(** The module-level legacy function. *)
Definition transcribe_audio `{Whisper} (file_path : string) : M pystr :=
  '(text, _) ← stt_transcribe_audio file_path None;
  mret text.

(** State after [n] calls of [_ensure] made one after another. *)
Fixpoint ensure_calls `{Whisper} (n : nat) (s : St) : St :=
  match n with
  | 0 => s
  | S n' => ensure_calls n' (_LazySTT._ensure s).1
  end.

(** The name [_ensure] reads from the environment and the size the
    service constructor then resolves. *)
Definition lazy_model_name (w : World) : string :=
  default "tiny" (environ w !! "WHISPER_MODEL").

Definition lazy_model_size (w : World) : string :=
  SpeechToTextService.resolve_model_size
    (environ w !! "WHISPER_MODEL") (Some (lazy_model_name w)).

(** The events of one load attempt, up to its outcome. *)
Definition load_events (w : World) : list Event :=
  [EvInfo (Instantiating (lazy_model_name w));
   EvInfo (LoadingModel (lazy_model_size w));
   EvLoadModel (lazy_model_size w)].

Definition loaded_with `{Whisper} (svc : Service) (s : St) : St :=
  {| world := world s; stt_service := {| _service := Some svc |}; trace := trace s |}.


(** The claim C3 as worded: a missing path makes the call through the
    shared handle fail with [FileNotFoundError] without any model load
    or model call having been made. *)
Definition missing_path_fails_first `{Whisper} : Prop :=
  ∀ (path : string) (lang : option string) (s : St),
    path ∉ files (world s) →
    ∃ s', stt_transcribe_audio path lang s = (s', Raise (FileNotFoundError path))
          ∧ filter is_model_work (trace s') = filter is_model_work (trace s).

(** ** Threads entering [_ensure] at the same time

    Each thread runs the statements of [_ensure] in order; between two
    statements any other thread may run.  The shared state is the
    program state, the private state of a thread is its position and
    its local [svc]. *)

Module Interleaving.
Section WithWhisper.
Context `{Whisper}.

Inductive pc :=
| AtCheck
| AtInstantiate
| AtAssign (svc : Service)
| Returned
| Raised (e : exn).

Record Conf := {
  shared : St;
  threads : list pc;
}.

Definition step_thread (p : pc) (s : St) : St * pc :=
  match p with
  | AtCheck =>
      match _service (stt_service s) with
      | None => (s, AtInstantiate)
      | Some _ => (s, Returned)
      end
  | AtInstantiate =>
      match _LazySTT.instantiate s with
      | (s', Ok svc) => (s', AtAssign svc)
      | (s', Raise e) => (s', Raised e)
      end
  | AtAssign svc => ((_LazySTT.set_service svc s).1, Returned)
  | Returned => (s, Returned)
  | Raised e => (s, Raised e)
  end.

(** Thread [tid] takes its next step. *)
Definition step (c : Conf) (tid : nat) : Conf :=
  match threads c !! tid with
  | Some p =>
      let '(s', p') := step_thread p (shared c) in
      {| shared := s'; threads := <[tid := p']> (threads c) |}
  | None => c
  end.

Definition run (schedule : list nat) (c : Conf) : Conf :=
  fold_left step schedule c.

(** [n] callers, all about to enter [_ensure]. *)
Definition first_callers (n : nat) (s : St) : Conf :=
  {| shared := s; threads := replicate n AtCheck |}.



(** Every caller that has returned finds a service in the handle. *)
Definition returned_see_service (c : Conf) : Prop :=
  ∀ tid, threads c !! tid = Some Returned →
    is_Some (_service (stt_service (shared c))).

(** A caller that has not started or has returned. *)
Definition idle (p : pc) : Prop := p = AtCheck ∨ p = Returned.


End WithWhisper.
End Interleaving.

(** ** test_translation.py *)

Module TestTranslation.

(** Modelled from the spec: the translation service the script imports
    ([services.translate] is not part of the repository), with
    [detect_language(text) -> (lang, confidence)] and
    [translate_text(text, src, dst) -> text]. Both may fail and may
    change the service's own state [Tr]. *)
Class TranslationService `{Num} := {
  Tr : Type;
  detect_language : string → Tr → Tr * result (string * num);
  translate_text : string → string → string → Tr → Tr * result string;
}.





Section WithService.
Context `{TranslationService}.











End WithService.
End TestTranslation.

(** ** The mean of the carried probabilities *)

(** Specification side: the left-to-right sum and the unweighted mean
    of a list of numbers, and the no-speech probabilities of the
    segments that carry one. *)
Section Mean.
Context `{Num}.

Definition num_sum (xs : list num) : num := fold_left num_add xs num_zero.

Definition mean (xs : list num) : num :=
  num_div (num_sum xs) (num_of_count (length xs)).

Definition carried (segments : list Segment) : list num :=
  omap no_speech_prob segments.

End Mean.

(** ** Concrete collaborators *)

Module Examples.

(** ["  hi \n"]. *)
Definition text_hi : pystr := [32; 32; 104; 105; 32; 10]%N.

Definition seg (e : float) (p : option float) : @Segment float_Num :=
  @Build_Segment float_Num (Some e) p.

Definition result_hi : @TranscribeResult float_Num :=
  @Build_TranscribeResult float_Num text_hi (Some "en")
    (Some [seg 1.5 (Some 0.1%float); seg 3 (Some 0.3%float)]).

(** Loads and transcribes without fail. *)
Definition ok_whisper : @Whisper float_Num := {|
  Model := ();
  whisper_load_model := λ _ w, (w, Ok ());
  model_transcribe := λ _ _ _ w, (w, Ok result_hi);
|}.

(** Hears nothing: a whitespace-only text, no language, no segments. *)
Definition result_silence : @TranscribeResult float_Num :=
  @Build_TranscribeResult float_Num [32; 10]%N None None.

Definition silent_whisper : @Whisper float_Num := {|
  Model := ();
  whisper_load_model := λ _ w, (w, Ok ());
  model_transcribe := λ _ _ _ w, (w, Ok result_silence);
|}.

(** Reports as language the hint it was given in its options, and none
    when the options hold no language. *)
Definition echo_whisper : @Whisper float_Num := {|
  Model := ();
  whisper_load_model := λ _ w, (w, Ok ());
  model_transcribe := λ _ _ options w,
    (w, Ok (@Build_TranscribeResult float_Num text_hi
              match options !! "language" with
              | Some (PyStr l) => Some l
              | _ => None
              end
              None));
|}.

(** Runs out of memory on every load. *)
Definition oom_whisper : @Whisper float_Num := {|
  Model := ();
  whisper_load_model := λ _ w, (w, Raise MemoryError);
  model_transcribe := λ _ _ _ w, (w, Ok result_hi);
|}.

(** Loads, then fails on every transcription. *)
Definition deaf_whisper : @Whisper float_Num := {|
  Model := ();
  whisper_load_model := λ _ w, (w, Ok ());
  model_transcribe := λ _ _ _ w, (w, Raise (RuntimeError "decode"));
|}.

Definition add_file (path : string) (w : World) : World :=
  {| environ := environ w; files := files w ∪ {[path]}; locked := locked w |}.

Definition one_tempfile : Tempfile := {|
  NamedTemporaryFile := λ w, (add_file "/tmp/tmpq.webm" w, Ok "/tmp/tmpq.webm");
|}.

Definition upload : FileStorage := {| save := λ _ w, (w, Ok ()) |}.

Definition world0 : World := {| environ := ∅; files := {["a.wav"]}; locked := ∅ |}.

Definition unloaded `{Whisper} : St :=
  {| world := world0; stt_service := {| _service := None |}; trace := [] |}.

Definition tiny_service `{Whisper} (m : Model) : Service :=
  {| model_size := "tiny"; model := Some m |}.

Definition ok_service : @Service _ ok_whisper := @tiny_service _ ok_whisper ().
Definition deaf_service : @Service _ deaf_whisper := @tiny_service _ deaf_whisper ().
Definition silent_service : @Service _ silent_whisper :=
  @tiny_service _ silent_whisper ().
Definition echo_service : @Service _ echo_whisper := @tiny_service _ echo_whisper ().

(** The handle after a first successful call. *)
Definition loaded_ok : @St _ ok_whisper :=
  {| world := world0; stt_service := {| _service := Some ok_service |};
     trace := [] |}.

(** No temporary file can be created. *)
Definition no_tempfile : Tempfile := {|
  NamedTemporaryFile := λ w, (w, Raise (PermissionError "/tmp"));
|}.

(** Gives a name but leaves no file behind it. *)
Definition ghost_tempfile : Tempfile := {|
  NamedTemporaryFile := λ w, (w, Ok "/tmp/gone.webm");
|}.

(** An upload whose [save] fails. *)
Definition broken_upload : FileStorage :=
  {| save := λ _ w, (w, Raise (RuntimeError "stream closed")) |}.

End Examples.

(** * Verified properties *)

Section ConfidenceFacts.
Context `{Num}.
Import SpeechToTextService.

Lemma confidence_loop (segments : list Segment) (total : num) (count : nat) :
  fold_left confidence_step segments (total, count)
  = (fold_left num_add (map (num_sub num_one) (carried segments)) total,
     count + length (carried segments)).
Proof.
  revert total count.
  induction segments as [|s segments IH]; intros total count; simpl.
  - f_equal. lia.
  - unfold confidence_step at 2, carried. simpl.
    destruct (no_speech_prob s) as [p|]; simpl.
    + rewrite IH. unfold carried. f_equal. lia.
    + apply IH.
Qed.

Lemma carried_filter (segments : list Segment) :
  carried (filter (λ s, is_Some (no_speech_prob s)) segments) = carried segments.
Proof.
  unfold carried. induction segments as [|s segments IH]; [done|].
  rewrite filter_cons.
  destruct (decide (is_Some (no_speech_prob s))) as [[p Hp]|Hn]; simpl.
  - rewrite Hp. simpl. by f_equal.
  - destruct (no_speech_prob s); [|done]. exfalso. apply Hn. eauto.
Qed.

Lemma calculate_confidence_carried (segments : list Segment) :
  _calculate_confidence segments
  = match carried segments with
    | [] => num_zero
    | ps => mean (map (num_sub num_one) ps)
    end.
Proof.
  unfold _calculate_confidence.
  destruct segments as [|s segments]; [done|].
  rewrite confidence_loop.
  destruct (carried (s :: segments)) as [|p ps]; simpl; [done|].
  unfold mean, num_sum. simpl. by rewrite length_map.
Qed.

(** C1: the estimator returns the unweighted mean of [1 - p] over the
    probabilities [p] of exactly the segments that carry the field, and
    zero when no segment carries it (the empty list included); segments
    without the field change neither the sum nor the count. *)
Theorem calculate_confidence_mean (segments : list Segment) :
  _calculate_confidence segments
  = match carried segments with
    | [] => num_zero
    | ps => mean (map (num_sub num_one) ps)
    end
  ∧ _calculate_confidence (filter (λ s, is_Some (no_speech_prob s)) segments)
    = _calculate_confidence segments.
Proof.
  split; [apply calculate_confidence_carried|].
  by rewrite !calculate_confidence_carried, carried_filter.
Qed.

End ConfidenceFacts.

Section StripFacts.

Lemma lstrip_split (s : pystr) :
  ∃ pre, s = pre ++ lstrip s ∧ Forall is_space pre.
Proof.
  induction s as [|c s [pre [Hs Hpre]]]; simpl.
  - by exists [].
  - destruct (py_isspace c) eqn:Hc.
    + exists (c :: pre). split; [simpl; congruence|by constructor].
    + by exists [].
Qed.

Lemma lstrip_head (s : pystr) (c : N) :
  head (lstrip s) = Some c → py_isspace c = false.
Proof.
  induction s as [|d s IH]; simpl; [done|].
  destruct (py_isspace d) eqn:Hd; [done|]. simpl. congruence.
Qed.

Lemma lstrip_all_space (s : pystr) : Forall is_space s → lstrip s = [].
Proof.
  induction 1 as [|c s Hc _ IH]; simpl; [done|]. by rewrite Hc.
Qed.

Lemma rstrip_split (s : pystr) :
  ∃ suf, s = rstrip s ++ suf ∧ Forall is_space suf.
Proof.
  destruct (lstrip_split (reverse s)) as [pre [Hs Hpre]].
  exists (reverse pre). split.
  - unfold rstrip. rewrite <- reverse_app, <- Hs. by rewrite reverse_involutive.
  - by apply Forall_reverse.
Qed.

Lemma rstrip_last (s : pystr) (c : N) :
  last (rstrip s) = Some c → py_isspace c = false.
Proof. unfold rstrip. rewrite last_reverse. apply lstrip_head. Qed.

Lemma rstrip_head (s : pystr) (c : N) :
  head (rstrip s) = Some c → head s = Some c.
Proof.
  destruct (rstrip_split s) as [suf [Hs _]]. intros Hc.
  rewrite Hs. by destruct (rstrip s).
Qed.

Lemma strip_spec (s : pystr) :
  (∃ pre suf, s = pre ++ strip s ++ suf ∧ Forall is_space pre ∧ Forall is_space suf)
  ∧ (∀ c, head (strip s) = Some c → py_isspace c = false)
  ∧ (∀ c, last (strip s) = Some c → py_isspace c = false).
Proof.
  unfold strip. split; [|split].
  - destruct (lstrip_split s) as [pre [Hs Hpre]].
    destruct (rstrip_split (lstrip s)) as [suf [Hl Hsuf]].
    exists pre, suf. split; [|done]. by rewrite <- Hl.
  - intros c Hc. apply rstrip_head in Hc. by apply lstrip_head in Hc.
  - apply rstrip_last.
Qed.

Lemma strip_all_space (s : pystr) : Forall is_space s → strip s = [].
Proof. intros Hs. unfold strip. by rewrite lstrip_all_space. Qed.

End StripFacts.

Section ServiceFacts.
Context `{Whisper}.
Import SpeechToTextService.

Lemma logged_logged (evs1 evs2 : list Event) (s : St) :
  logged evs2 (logged evs1 s) = logged (evs1 ++ evs2) s.
Proof. unfold logged. simpl. by rewrite app_assoc. Qed.

Lemma transcribe_audio_missing (self : Service) (path : string)
    (lang : option string) (s : St) :
  path ∉ files (world s) →
  transcribe_audio self path lang s
  = (logged [EvError (TranscriptionFailed (FileNotFoundError path))] s,
     Raise (FileNotFoundError path)).
Proof.
  intros Hp. unfold transcribe_audio. unfold_m. simpl.
  by rewrite bool_decide_eq_false_2.
Qed.

Lemma transcribe_audio_found (self : Service) (path : string)
    (lang : option string) (s : St) (m : Model) :
  model self = Some m →
  path ∈ files (world s) →
  transcribe_audio self path lang s
  = match model_transcribe m path (build_options lang) (world s) with
    | (w', Ok r) =>
        (logged [EvInfo (Transcribing path);
                 EvTranscribe path (build_options lang);
                 EvInfo (Completed (take 100 (strip (r_text r))))]
           (set_world w' s),
         Ok (strip (r_text r), build_metadata r))
    | (w', Raise e) =>
        (logged [EvInfo (Transcribing path);
                 EvTranscribe path (build_options lang);
                 EvError (TranscriptionFailed e)]
           (set_world w' s),
         Raise e)
    end.
Proof.
  intros Hm Hp. unfold transcribe_audio, call_transcribe. unfold_m. simpl.
  rewrite bool_decide_eq_true_2 by done. simpl. rewrite Hm. simpl.
  destruct (model_transcribe m path (build_options lang) (world s)) as [w' [r|e]];
    unfold logged, set_world; simpl; by rewrite <- !app_assoc.
Qed.

Lemma transcribe_audio_no_model (self : Service) (path : string)
    (lang : option string) (s : St) :
  model self = None →
  path ∈ files (world s) →
  transcribe_audio self path lang s
  = (logged [EvInfo (Transcribing path);
             EvError (TranscriptionFailed (AttributeError "transcribe"))] s,
     Raise (AttributeError "transcribe")).
Proof.
  intros Hm Hp. unfold transcribe_audio, call_transcribe. unfold_m. simpl.
  rewrite bool_decide_eq_true_2 by done. simpl. rewrite Hm. simpl.
  unfold logged; simpl; by rewrite <- !app_assoc.
Qed.

End ServiceFacts.

Section LazyFacts.
Context `{Whisper}.
Import SpeechToTextService _LazySTT.

Lemma instantiate_run (s : St) :
  instantiate s
  = match whisper_load_model (lazy_model_size (world s)) (world s) with
    | (w', Ok m) =>
        (logged (load_events (world s) ++ [EvInfo ModelLoaded]) (set_world w' s),
         Ok {| model_size := lazy_model_size (world s); model := Some m |})
    | (w', Raise e) =>
        (logged (load_events (world s) ++ [EvError (LoadFailed e)]) (set_world w' s),
         Raise e)
    end.
Proof.
  unfold instantiate, __init__, _load_model. unfold_m. simpl.
  fold (lazy_model_name (world s)). fold (lazy_model_size (world s)).
  destruct (whisper_load_model (lazy_model_size (world s)) (world s)) as [w' [m|e]];
    unfold logged, set_world, load_events; simpl; by rewrite <- !app_assoc.
Qed.

Lemma ensure_loaded (s : St) (svc : Service) :
  _service (stt_service s) = Some svc → _ensure s = (s, Ok ()).
Proof. intros Hs. unfold _ensure, get_service. unfold_m. by rewrite Hs. Qed.

Lemma ensure_unloaded (s : St) :
  _service (stt_service s) = None →
  _ensure s
  = match instantiate s with
    | (s', Ok svc) => (loaded_with svc s', Ok ())
    | (s', Raise e) => (s', Raise e)
    end.
Proof.
  intros Hs. unfold _ensure, get_service, set_service. unfold_m. rewrite Hs.
  by destruct (instantiate s) as [s' [svc|e]].
Qed.

Lemma getattr_run (s : St) :
  __getattr__ s
  = match _ensure s with
    | (s', Ok _) =>
        match _service (stt_service s') with
        | Some svc => (s', Ok svc)
        | None => (s', Raise (AttributeError "NoneType"))
        end
    | (s', Raise e) => (s', Raise e)
    end.
Proof.
  unfold __getattr__, get_service. unfold_m.
  destruct (_ensure s) as [s' [[]|e]]; [|done].
  by destruct (_service (stt_service s')).
Qed.

Lemma count_loads_app (tr1 tr2 : list Event) :
  count_loads (tr1 ++ tr2) = count_loads tr1 + count_loads tr2.
Proof. unfold count_loads. by rewrite filter_app, length_app. Qed.


Lemma ensure_unloaded_loads (s : St) :
  _service (stt_service s) = None →
  count_loads (trace (_ensure s).1) = count_loads (trace s) + 1.
Proof.
  intros Hs. rewrite ensure_unloaded by done. rewrite instantiate_run.
  destruct (whisper_load_model _ _) as [w' [m|e]]; simpl;
    by rewrite !count_loads_app.
Qed.

Lemma ensure_idempotent (s0 s1 : St) :
  _ensure s0 = (s1, Ok ()) → _ensure s1 = (s1, Ok ()).
Proof.
  destruct (_service (stt_service s0)) as [svc|] eqn:Hs.
  - rewrite (ensure_loaded _ svc) by done. intros [= <-].
    by apply (ensure_loaded _ svc).
  - rewrite ensure_unloaded by done.
    destruct (instantiate s0) as [s' [svc|e]]; [|done].
    intros [= <-]. by apply (ensure_loaded _ svc).
Qed.

Lemma ensure_sets_service (s0 s1 : St) :
  _ensure s0 = (s1, Ok ()) →
  is_Some (_service (stt_service s1)) ∧ _ensure s1 = (s1, Ok ()).
Proof.
  intros H01. split; [|by apply (ensure_idempotent s0)].
  destruct (_service (stt_service s0)) as [svc|] eqn:Hs0.
  - rewrite (ensure_loaded _ svc) in H01 by done.
    injection H01 as <-. by rewrite Hs0.
  - rewrite ensure_unloaded in H01 by done.
    destruct (instantiate s0) as [s2 [svc|e0]]; [|done].
    injection H01 as <-. by eexists.
Qed.

Lemma ensure_calls_loaded (n : nat) (s : St) (svc : Service) :
  _service (stt_service s) = Some svc → ensure_calls n s = s.
Proof.
  intros Hs. induction n as [|n IH]; simpl; [done|].
  by rewrite (ensure_loaded _ svc).
Qed.

End LazyFacts.

(** ** The service object *)

Section Claims.
Context `{Whisper}.

(** C2: a transcription that the model completes returns the model's
    text stripped of leading and trailing whitespace, and metadata
    whose segment count is the length of the model's segment list,
    whose duration is the end offset of the last segment (zero for an
    empty or missing list) and whose language is the reported one, or
    ["unknown"] when none is reported. *)
Theorem transcribe_audio_metadata (self : Service) (path : string)
    (lang : option string) (s : St) (m : Model) (w' : World)
    (r : TranscribeResult) :
  model self = Some m →
  path ∈ files (world s) →
  model_transcribe m path (SpeechToTextService.build_options lang) (world s) = (w', Ok r) →
  ∃ s' md,
    SpeechToTextService.transcribe_audio self path lang s = (s', Ok (strip (r_text r), md))
    ∧ md_segments md = length (default [] (r_segments r))
    ∧ (default [] (r_segments r) = [] → md_duration md = num_zero)
    ∧ (∀ seg e, last (default [] (r_segments r)) = Some seg →
         seg_end seg = Some e → md_duration md = e)
    ∧ (∀ l, r_language r = Some l → md_language md = l)
    ∧ (r_language r = None → md_language md = "unknown")
    ∧ (∃ pre suf, r_text r = pre ++ strip (r_text r) ++ suf
         ∧ Forall is_space pre ∧ Forall is_space suf)
    ∧ (∀ c, head (strip (r_text r)) = Some c → py_isspace c = false)
    ∧ (∀ c, last (strip (r_text r)) = Some c → py_isspace c = false).
Proof.
  intros Hm Hp Hr. rewrite (transcribe_audio_found _ _ _ _ m) by done.
  rewrite Hr. eexists _, _. split; [done|].
  destruct (strip_spec (r_text r)) as (Hsplit & Hhead & Hlast).
  unfold SpeechToTextService.build_metadata, SpeechToTextService.duration_of. simpl.
  destruct (r_segments r) as [[|seg0 segs]|]; simpl;
    repeat split; try done; try (by intros l ->); try (by intros ->).
  intros seg e Hl He. simpl in Hl. rewrite Hl. by rewrite He.
Qed.


(** C8: whatever result the model returns, the call returns a text; a
    model text that is empty, or made of whitespace only, comes back as
    the empty string and the call does not fail. *)
Theorem transcribe_audio_text_never_missing (self : Service) (path : string)
    (lang : option string) (s : St) (m : Model) (w' : World)
    (r : TranscribeResult) :
  model self = Some m →
  path ∈ files (world s) →
  model_transcribe m path (SpeechToTextService.build_options lang) (world s)
  = (w', Ok r) →
  ∃ s' (text : pystr) md,
    SpeechToTextService.transcribe_audio self path lang s = (s', Ok (text, md))
    ∧ (r_text r = [] → text = [])
    ∧ (Forall is_space (r_text r) → text = []).
Proof.
  intros Hm Hp Hr. rewrite (transcribe_audio_found _ _ _ _ m) by done.
  rewrite Hr. eexists _, _, _. split; [done|]. split.
  - by intros ->.
  - apply strip_all_space.
Qed.

(** The options built for a hint, and the model calls a transcription
    records. *)
Lemma build_options_traced (self : Service) (path : string)
    (lang : option string) (s : St) :
  let options := SpeechToTextService.build_options lang in
  options !! "task" = Some (PyStr "transcribe")
  ∧ options !! "fp16" = Some (PyBool false)
  ∧ (lang = None → options !! "language" = None)
  ∧ (∀ l, lang = Some l → options !! "language" = Some (PyStr l))
  ∧ SpeechToTextService.build_options (Some "") !! "language" = Some (PyStr "")
  ∧ SpeechToTextService.build_options None
    ≠ SpeechToTextService.build_options (Some "")
  ∧ (∀ m, model self = Some m → path ∈ files (world s) →
       EvTranscribe path options
       ∈ trace (SpeechToTextService.transcribe_audio self path lang s).1)
  ∧ (∀ p o,
       EvTranscribe p o
       ∈ trace (SpeechToTextService.transcribe_audio self path lang s).1 →
       EvTranscribe p o ∈ trace s ∨ (p = path ∧ o = options)).
Proof.
  intros options. subst options.
  split; [destruct lang; vm_compute; reflexivity|].
  split; [destruct lang; vm_compute; reflexivity|].
  split; [intros ->; vm_compute; reflexivity|].
  split; [intros l ->; vm_compute; reflexivity|].
  split; [vm_compute; reflexivity|].
  split.
  { intros Heq.
    apply (f_equal (λ o : gmap string PyVal, o !! "language")) in Heq.
    vm_compute in Heq. discriminate. }
  destruct (decide (path ∈ files (world s))) as [Hp|Hp].
  - destruct (model self) as [m|] eqn:Hm.
    + rewrite (transcribe_audio_found _ _ _ _ m) by done.
      destruct (model_transcribe _ _ _ _) as [w' [r|e]]; simpl;
        generalize (SpeechToTextService.build_options lang); intros options;
        split.
      * intros _ _ _. apply elem_of_app. right. apply elem_of_cons. right.
        apply elem_of_cons. by left.
      * intros p o. rewrite !elem_of_app, !elem_of_cons, elem_of_nil.
        intros [?|[?|[[= -> ->]|[?|[]]]]]; try done; [by left|]. by right.
      * intros _ _ _. apply elem_of_app. right. apply elem_of_cons. right.
        apply elem_of_cons. by left.
      * intros p o. rewrite !elem_of_app, !elem_of_cons, elem_of_nil.
        intros [?|[?|[[= -> ->]|[?|[]]]]]; try done; [by left|]. by right.
    + rewrite transcribe_audio_no_model by done. simpl.
      generalize (SpeechToTextService.build_options lang); intros options.
      split; [done|].
      intros p o. rewrite !elem_of_app, !elem_of_cons, elem_of_nil.
      intros [?|[?|[?|[]]]]; try done. by left.
  - rewrite transcribe_audio_missing by done. simpl.
    generalize (SpeechToTextService.build_options lang); intros options.
    split; [done|].
    intros p o. rewrite !elem_of_app, !elem_of_cons, elem_of_nil.
    intros [?|[?|[]]]; try done. by left.
Qed.

(** C4: the options handed to the model always hold task = "transcribe"
    and fp16 = False; without a language hint they hold no language key,
    with a hint (the empty string included) they hold it as given, so
    the two option sets differ. The model's [transcribe] is called with
    exactly these options: the host it leaves and the result or
    exception of the call are the model's own answer on them, and no
    other model call is made. *)
Theorem options_passed_to_model (self : Service) (path : string)
    (lang : option string) (s : St) :
  let options := SpeechToTextService.build_options lang in
  options !! "task" = Some (PyStr "transcribe")
  ∧ options !! "fp16" = Some (PyBool false)
  ∧ (lang = None → options !! "language" = None)
  ∧ (∀ l, lang = Some l → options !! "language" = Some (PyStr l))
  ∧ SpeechToTextService.build_options (Some "") !! "language" = Some (PyStr "")
  ∧ SpeechToTextService.build_options None
    ≠ SpeechToTextService.build_options (Some "")
  ∧ (∀ m, model self = Some m → path ∈ files (world s) →
       world (SpeechToTextService.transcribe_audio self path lang s).1
       = (model_transcribe m path options (world s)).1
       ∧ (SpeechToTextService.transcribe_audio self path lang s).2
         = result_map
             (λ r, (strip (r_text r), SpeechToTextService.build_metadata r))
             (model_transcribe m path options (world s)).2)
  ∧ (∀ m, model self = Some m → path ∈ files (world s) →
       EvTranscribe path options
       ∈ trace (SpeechToTextService.transcribe_audio self path lang s).1)
  ∧ (∀ p o,
       EvTranscribe p o
       ∈ trace (SpeechToTextService.transcribe_audio self path lang s).1 →
       EvTranscribe p o ∈ trace s ∨ (p = path ∧ o = options)).
Proof.
  intros options. subst options.
  pose proof (build_options_traced self path lang s) as Htraced.
  cbv zeta in Htraced.
  destruct Htraced
    as (Htask & Hfp16 & Hnone & Hsome & Hempty & Hdiff & Hcalled & Honly).
  split; [exact Htask|]. split; [exact Hfp16|]. split; [exact Hnone|].
  split; [exact Hsome|]. split; [exact Hempty|]. split; [exact Hdiff|].
  split; [|split; [exact Hcalled|exact Honly]].
  intros m Hm Hp. rewrite (transcribe_audio_found _ _ _ _ m) by exact Hp || exact Hm.
  generalize (SpeechToTextService.build_options lang). intros options.
  destruct (model_transcribe m path options (world s)) as [w' [r|e]];
    split; reflexivity.
Qed.

End Claims.

(** ** The shared handle and the legacy function *)

Section HandleClaims.
Context `{Whisper}.

Lemma stt_transcribe_audio_loaded (path : string) (lang : option string)
    (s : St) (svc : Service) :
  _service (stt_service s) = Some svc →
  stt_transcribe_audio path lang s
  = SpeechToTextService.transcribe_audio svc path lang s.
Proof.
  intros Hs. unfold stt_transcribe_audio. unfold mbind at 1. unfold M_bind.
  rewrite getattr_run, (ensure_loaded _ svc) by done. by rewrite Hs.
Qed.

Lemma stt_transcribe_audio_unloaded (path : string) (lang : option string)
    (s : St) :
  _service (stt_service s) = None →
  stt_transcribe_audio path lang s
  = match _LazySTT.instantiate s with
    | (s', Ok svc) =>
        SpeechToTextService.transcribe_audio svc path lang (loaded_with svc s')
    | (s', Raise e) => (s', Raise e)
    end.
Proof.
  intros Hs. unfold stt_transcribe_audio. unfold mbind at 1. unfold M_bind.
  rewrite getattr_run, ensure_unloaded by done.
  by destruct (_LazySTT.instantiate s) as [s' [svc|e]].
Qed.

(** C3 (amended): on a service object a missing path fails with
    [FileNotFoundError] before the model is touched, whether or not the
    object has a model. Through the shared handle the load comes first:
    a loaded handle fails with [FileNotFoundError] and no model work; an
    unloaded one first runs the load, whose failure is what the caller
    gets, and raises [FileNotFoundError] only after the load succeeded.
    The model's transcription is never invoked. *)
Theorem missing_path_file_not_found (self : Service) (path : string)
    (lang : option string) (s : St) :
  path ∉ files (world s) →
  let failed := EvError (TranscriptionFailed (FileNotFoundError path)) in
  SpeechToTextService.transcribe_audio self path lang s
  = (logged [failed] s, Raise (FileNotFoundError path))
  ∧ (∀ svc, _service (stt_service s) = Some svc →
       stt_transcribe_audio path lang s
       = (logged [failed] s, Raise (FileNotFoundError path)))
  ∧ (_service (stt_service s) = None →
       ∀ w' e,
         whisper_load_model (lazy_model_size (world s)) (world s) = (w', Raise e) →
         stt_transcribe_audio path lang s
         = (logged (load_events (world s) ++ [EvError (LoadFailed e)])
              (set_world w' s),
            Raise e))
  ∧ (_service (stt_service s) = None →
       ∀ w' m,
         whisper_load_model (lazy_model_size (world s)) (world s) = (w', Ok m) →
         path ∉ files w' →
         stt_transcribe_audio path lang s
         = (logged [failed]
              (loaded_with
                 {| model_size := lazy_model_size (world s); model := Some m |}
                 (logged (load_events (world s) ++ [EvInfo ModelLoaded])
                    (set_world w' s))),
            Raise (FileNotFoundError path))).
Proof.
  intros Hp failed. split; [by apply transcribe_audio_missing|].
  split; [|split].
  - intros svc Hs. rewrite (stt_transcribe_audio_loaded _ _ _ svc) by done.
    by apply transcribe_audio_missing.
  - intros Hs w' e Hl. rewrite stt_transcribe_audio_unloaded by done.
    by rewrite instantiate_run, Hl.
  - intros Hs w' m Hl Hp'. rewrite stt_transcribe_audio_unloaded by done.
    rewrite instantiate_run, Hl. by apply transcribe_audio_missing.
Qed.

(** C6: when the load fails, the failure reaches the caller of the
    method that triggered it, the handle stays unloaded, and the next
    call runs the load again; once a call of [_ensure] has succeeded,
    the following ones change nothing and load nothing. *)
Theorem load_failure_leaves_handle_unloaded (s : St) (w' : World) (e : exn) :
  _service (stt_service s) = None →
  whisper_load_model (lazy_model_size (world s)) (world s) = (w', Raise e) →
  let s' := logged (load_events (world s) ++ [EvError (LoadFailed e)])
              (set_world w' s) in
  _LazySTT._ensure s = (s', Raise e)
  ∧ _LazySTT.__getattr__ s = (s', Raise e)
  ∧ (∀ path lang, stt_transcribe_audio path lang s = (s', Raise e))
  ∧ (∀ path, transcribe_audio path s = (s', Raise e))
  ∧ _service (stt_service s') = None
  ∧ count_loads (trace (_LazySTT._ensure s').1) = count_loads (trace s') + 1
  ∧ (∀ s0 s1, _LazySTT._ensure s0 = (s1, Ok ()) →
       is_Some (_service (stt_service s1))
       ∧ _LazySTT._ensure s1 = (s1, Ok ())
       ∧ ∀ n, ensure_calls n s1 = s1).
Proof.
  intros Hs Hl s'.
  assert (He : _LazySTT._ensure s = (s', Raise e)).
  { rewrite ensure_unloaded by done. by rewrite instantiate_run, Hl. }
  assert (Ht : ∀ path lang, stt_transcribe_audio path lang s = (s', Raise e)).
  { intros path lang. rewrite stt_transcribe_audio_unloaded by done.
    by rewrite instantiate_run, Hl. }
  split; [done|]. split; [by rewrite getattr_run, He|]. split; [done|].
  split.
  { intros path. unfold transcribe_audio. unfold mbind, M_bind. by rewrite Ht. }
  split; [done|]. split; [by apply ensure_unloaded_loads|].
  intros s0 s1 H01.
  destruct (ensure_sets_service _ _ H01) as [[svc Hsvc] Hidem].
  split; [by eexists|]. split; [done|].
  intros n. by apply (ensure_calls_loaded _ _ svc).
Qed.

(** C9: the legacy function returns the text component of the call
    through the shared handle with no language hint, leaves the same
    state behind and fails exactly when that call fails, with the same
    exception. *)
Theorem legacy_returns_text_component (path : string) (s : St) :
  transcribe_audio path s
  = ((stt_transcribe_audio path None s).1,
     result_map fst (stt_transcribe_audio path None s).2).
Proof.
  unfold transcribe_audio. unfold mbind at 1. unfold M_bind.
  by destruct (stt_transcribe_audio path None s) as [s' [[text md]|e]].
Qed.

(** C10: [WHISPER_MODEL], when set and not empty, decides the size even
    if the constructor is given one; the argument counts only when the
    variable is unset or empty, and with neither the size is ["tiny"].
    The handle therefore loads the variable's size, or ["tiny"]. *)
Theorem env_overrides_model_size (model_size_arg : option string) (s : St) :
  let env_model := environ (world s) !! "WHISPER_MODEL" in
  ∃ size,
    SpeechToTextService.__init__ model_size_arg s
    = (s, Ok {| model_size := size; model := None |})
    ∧ (∀ e, env_model = Some e → e ≠ "" → size = e)
    ∧ (env_model = None ∨ env_model = Some "" →
       ∀ a, model_size_arg = Some a → a ≠ "" → size = a)
    ∧ (env_model = None ∨ env_model = Some "" →
       model_size_arg = None ∨ model_size_arg = Some "" → size = "tiny")
    ∧ (∀ e, env_model = Some e → e ≠ "" → lazy_model_size (world s) = e)
    ∧ (env_model = None ∨ env_model = Some "" →
       lazy_model_size (world s) = "tiny").
Proof.
  intros env_model. eexists. split; [reflexivity|].
  unfold lazy_model_size, lazy_model_name. fold env_model.
  unfold SpeechToTextService.resolve_model_size, SpeechToTextService.truthy.
  repeat split.
  - intros e -> He. simpl. by rewrite bool_decide_eq_false_2.
  - intros [->| ->] a -> Ha; simpl; by rewrite bool_decide_eq_false_2.
  - intros [->| ->] [->| ->]; done.
  - intros e -> He. simpl. by rewrite bool_decide_eq_false_2.
  - intros [->| ->]; done.
Qed.

End HandleClaims.

(** ** Uploads *)

Section UploadClaims.
Context `{Whisper} `{Tempfile}.

Lemma cleanup_run (name : string) (s : St) :
  except_OSError_pass (os_unlink name) s = (after_cleanup name s, Ok ()).
Proof.
  unfold after_cleanup. unfold_m. unfold logged, set_world, unlink. simpl.
  destruct (decide (name ∈ files (world s))); [|done].
  destruct (decide (name ∈ locked (world s))); done.
Qed.

Lemma transcribe_audio_file_staged (self : Service) (audio_file : FileStorage)
    (lang : option string) (s : St) (w1 w2 : World) (name : string) :
  NamedTemporaryFile (world s) = (w1, Ok name) →
  save audio_file name w1 = (w2, Ok ()) →
  SpeechToTextService.transcribe_audio_file self audio_file lang s
  = (after_cleanup name
       (SpeechToTextService.transcribe_audio self name lang (set_world w2 s)).1,
     (SpeechToTextService.transcribe_audio self name lang (set_world w2 s)).2).
Proof.
  intros Ht Hs. unfold SpeechToTextService.transcribe_audio_file.
  unfold mbind at 1 2. unfold M_bind, on_world at 1 2. simpl.
  rewrite Ht. simpl. rewrite Hs. unfold try_finally.
  change {| world := w2; stt_service := stt_service s; trace := trace s |}
    with (set_world w2 s).
  destruct (SpeechToTextService.transcribe_audio self name lang (set_world w2 s))
    as [s1 r].
  by rewrite cleanup_run.
Qed.

(** When [audio_file.save] raises, the [try] block is never entered:
    the exception reaches the caller and no unlink is attempted. *)
Lemma transcribe_audio_file_save_raises (self : Service) (audio_file : FileStorage)
    (lang : option string) (s : St) (w1 w2 : World) (name : string) (e : exn) :
  NamedTemporaryFile (world s) = (w1, Ok name) →
  save audio_file name w1 = (w2, Raise e) →
  SpeechToTextService.transcribe_audio_file self audio_file lang s
  = (set_world w2 s, Raise e).
Proof.
  intros Ht Hs. unfold SpeechToTextService.transcribe_audio_file.
  unfold mbind at 1 2. unfold M_bind, on_world at 1 2. simpl.
  rewrite Ht. simpl. by rewrite Hs.
Qed.

(** Once the upload is staged in its temporary file, the call returns
    the outcome of the transcription on that file, success or exception
    alike; the unlink of the temporary file is always attempted
    afterwards, the file is gone unless the operating system refused to
    remove it, and a failed unlink changes neither the outcome nor the
    host. *)
Theorem upload_temp_file_removed (self : Service) (audio_file : FileStorage)
    (lang : option string) (s : St) (w1 w2 : World) (name : string) :
  NamedTemporaryFile (world s) = (w1, Ok name) →
  save audio_file name w1 = (w2, Ok ()) →
  ∃ s1 r s2,
    SpeechToTextService.transcribe_audio self name lang (set_world w2 s) = (s1, r)
    ∧ SpeechToTextService.transcribe_audio_file self audio_file lang s = (s2, r)
    ∧ trace s2 = trace s1 ++ [EvUnlink name]
    ∧ (name ∉ files (world s2) ∨ name ∈ locked (world s1))
    ∧ (∀ e, (unlink name (world s1)).2 = Raise e →
         is_OSError e = true ∧ world s2 = world s1)
    ∧ stt_service s2 = stt_service s1.
Proof.
  intros Ht Hs.
  rewrite (transcribe_audio_file_staged _ _ _ _ w1 w2 name) by done.
  destruct (SpeechToTextService.transcribe_audio self name lang (set_world w2 s))
    as [s1 r].
  exists s1, r, (after_cleanup name s1). simpl.
  split; [done|]. split; [done|]. split; [done|].
  unfold unlink.
  destruct (decide (name ∈ files (world s1))) as [Hin|Hout]; simpl.
  - destruct (decide (name ∈ locked (world s1))) as [Hl|Hl]; simpl.
    + split; [by right|]. split; [|done]. by intros e [= <-].
    + split.
      { left. intros [_ Hn]%elem_of_difference. apply Hn. by apply elem_of_singleton. }
      split; [|done]. intros e He. discriminate He.
  - split; [by left|]. split; [|done]. by intros e [= <-].
Qed.

End UploadClaims.

(** ** Overlapping callers *)

Section InterleavingFacts.
Context `{Whisper}.
Import Interleaving.






(** One caller alone goes through the three steps of [_ensure]. *)
Lemma solo_run_is_ensure (s : St) :
  shared (run [0; 0; 0] (first_callers 1 s)) = (_LazySTT._ensure s).1.
Proof.
  unfold run, first_callers, step. simpl.
  destruct (_service (stt_service s)) as [svc|] eqn:Hs; simpl.
  - by rewrite (ensure_loaded _ svc).
  - rewrite ensure_unloaded by done.
    by destruct (_LazySTT.instantiate s) as [s' [svc|e]].
Qed.


End InterleavingFacts.

(** ** Concrete runs *)

Section Witnesses.
Import Examples.

Lemma a_wav_exists : "a.wav" ∈ files world0.
Proof. change ("a.wav" ∈ ({["a.wav"]} : gset string)). by apply elem_of_singleton. Qed.

Lemma missing_wav_absent : "missing.wav" ∉ files world0.
Proof.
  change ("missing.wav" ∉ ({["a.wav"]} : gset string)).
  by intros [=]%elem_of_singleton.
Qed.

Example strip_text_hi : strip text_hi = [104; 105]%N.
Proof. reflexivity. Qed.

Example strip_no_break_space : strip [160; 104; 8195]%N = [104]%N.
Proof. reflexivity. Qed.

(** Probabilities [0.1] and [0.3] give 0.8; a segment without the field
    does not count. *)
Example confidence_two_segments :
  SpeechToTextService._calculate_confidence
    [seg 1.5 (Some 0.1%float); seg 3 (Some 0.3%float)] = 0.8%float.
Proof. vm_compute. reflexivity. Qed.

Example confidence_mixed_segments :
  SpeechToTextService._calculate_confidence [seg 1 (Some 0%float); seg 2 None]
  = 1%float.
Proof. vm_compute. reflexivity. Qed.

Lemma transcribe_audio_metadata_witness :
  ∃ s' md,
    @SpeechToTextService.transcribe_audio _ ok_whisper
      ok_service "a.wav" None unloaded
    = (s', Ok ([104; 105]%N, md))
    ∧ md_segments md = 2
    ∧ md_duration md = 3%float
    ∧ md_language md = "en".
Proof.
  destruct (@transcribe_audio_metadata _ ok_whisper ok_service "a.wav"
              None unloaded () world0 result_hi eq_refl a_wav_exists eq_refl)
    as (s' & md & Hrun & Hseg & _ & Hdur & Hlang & _).
  exists s', md. split; [exact Hrun|]. split; [exact Hseg|].
  split; [exact (Hdur (seg 3 (Some 0.3%float)) 3%float eq_refl eq_refl)|].
  exact (Hlang "en" eq_refl).
Defined.

Lemma transcribe_audio_text_never_missing_witness :
  ∃ s' md,
    @SpeechToTextService.transcribe_audio _ silent_whisper
      silent_service "a.wav" None unloaded
    = (s', Ok ([], md)).
Proof.
  destruct (@transcribe_audio_text_never_missing _ silent_whisper silent_service
              "a.wav" None unloaded () world0 result_silence
              eq_refl a_wav_exists eq_refl)
    as (s' & text & md & Hrun & _ & Hspace).
  exists s', md. rewrite Hrun. do 3 f_equal. apply Hspace.
  repeat constructor.
Defined.

Lemma options_passed_to_model_witness :
  result_map (λ tm, md_language tm.2)
    (@SpeechToTextService.transcribe_audio _ echo_whisper
       echo_service "a.wav" (Some "") unloaded).2
  = Ok ""
  ∧ result_map (λ tm, md_language tm.2)
      (@SpeechToTextService.transcribe_audio _ echo_whisper
         echo_service "a.wav" None unloaded).2
    = Ok "unknown".
Proof.
  destruct (@options_passed_to_model _ echo_whisper echo_service "a.wav"
              (Some "") unloaded)
    as (_ & _ & _ & _ & _ & _ & Hempty & _).
  destruct (@options_passed_to_model _ echo_whisper echo_service "a.wav"
              None unloaded)
    as (_ & _ & _ & _ & _ & _ & Hnone & _).
  destruct (Hempty () eq_refl a_wav_exists) as [_ ->].
  destruct (Hnone () eq_refl a_wav_exists) as [_ ->].
  split; vm_compute; reflexivity.
Defined.

(** C5: the temporary file is not removed after every call. The upload
    is saved before the [try] block is entered, so when the save raises
    the call ends with that exception, no unlink is attempted, and the
    temporary file created for the upload is still on disk. *)
Theorem upload_save_failure_keeps_temp_file :
  let run := @SpeechToTextService.transcribe_audio_file _ ok_whisper one_tempfile
               ok_service broken_upload None unloaded in
  ("/tmp/tmpq.webm" ∉ files world0)
  ∧ run.2 = Raise (RuntimeError "stream closed")
  ∧ "/tmp/tmpq.webm" ∈ files (world run.1)
  ∧ (EvUnlink "/tmp/tmpq.webm" ∉ trace run.1).
Proof.
  cbv zeta.
  rewrite (@transcribe_audio_file_save_raises _ ok_whisper one_tempfile ok_service
             broken_upload None unloaded
             (add_file "/tmp/tmpq.webm" world0) (add_file "/tmp/tmpq.webm" world0)
             "/tmp/tmpq.webm" (RuntimeError "stream closed") eq_refl eq_refl).
  split.
  { change ("/tmp/tmpq.webm" ∉ ({["a.wav"]} : gset string)).
    by intros [=]%elem_of_singleton. }
  split; [reflexivity|]. split.
  - apply elem_of_union. right. by apply elem_of_singleton.
  - apply not_elem_of_nil.
Qed.

(** C3, as worded, fails on an unloaded handle. When the load raises,
    the caller gets the load's exception, not [FileNotFoundError]; when
    it succeeds, [FileNotFoundError] comes after a model load. *)
Lemma missing_path_load_error_first :
  ¬ @missing_path_fails_first _ oom_whisper
  ∧ ¬ @missing_path_fails_first _ ok_whisper.
Proof.
  split; intros Hclaim.
  - destruct (Hclaim "missing.wav" None unloaded missing_wav_absent)
      as (s' & Hrun & _).
    rewrite stt_transcribe_audio_unloaded, instantiate_run in Hrun by done.
    simpl in Hrun. discriminate Hrun.
  - destruct (Hclaim "missing.wav" None unloaded missing_wav_absent)
      as (s' & Hrun & Hwork).
    rewrite stt_transcribe_audio_unloaded, instantiate_run in Hrun by done.
    simpl in Hrun.
    rewrite transcribe_audio_missing in Hrun by exact missing_wav_absent.
    injection Hrun as <-. vm_compute in Hwork. discriminate Hwork.
Qed.

Lemma missing_path_file_not_found_witness :
  @SpeechToTextService.transcribe_audio _ ok_whisper
    ok_service "missing.wav" None unloaded
  = (logged [EvError (TranscriptionFailed (FileNotFoundError "missing.wav"))]
       unloaded,
     Raise (FileNotFoundError "missing.wav"))
  ∧ ∃ s', @stt_transcribe_audio _ ok_whisper "missing.wav" None unloaded
          = (s', Raise (FileNotFoundError "missing.wav"))
          ∧ count_loads (trace s') = 1.
Proof.
  destruct (@missing_path_file_not_found _ ok_whisper ok_service "missing.wav"
              None unloaded missing_wav_absent)
    as (Hdirect & _ & _ & Hload).
  split; [exact Hdirect|].
  eexists. split.
  - exact (Hload eq_refl world0 () eq_refl missing_wav_absent).
  - reflexivity.
Defined.

Lemma upload_temp_file_removed_witness :
  ∃ s2,
    @SpeechToTextService.transcribe_audio_file _ deaf_whisper one_tempfile
      deaf_service upload None unloaded
    = (s2, Raise (RuntimeError "decode"))
    ∧ "/tmp/tmpq.webm" ∉ files (world s2).
Proof.
  destruct (@upload_temp_file_removed _ deaf_whisper one_tempfile deaf_service
              upload None unloaded
              (add_file "/tmp/tmpq.webm" world0) (add_file "/tmp/tmpq.webm" world0)
              "/tmp/tmpq.webm" eq_refl eq_refl)
    as (s1 & r & s2 & Hrun & Hfile & _ & Hgone & _).
  rewrite (@transcribe_audio_found _ deaf_whisper _ _ _ _ ()) in Hrun;
    [|done|apply elem_of_union; right; by apply elem_of_singleton].
  simpl in Hrun. injection Hrun as <- <-.
  exists s2. split; [exact Hfile|].
  destruct Hgone as [Hgone|Hlocked]; [exact Hgone|].
  by apply not_elem_of_empty in Hlocked.
Defined.

Lemma load_failure_leaves_handle_unloaded_witness :
  (@_LazySTT._ensure _ oom_whisper unloaded).2 = Raise MemoryError
  ∧ _service (stt_service (@_LazySTT._ensure _ oom_whisper unloaded).1) = None
  ∧ @transcribe_audio _ oom_whisper "a.wav" unloaded
    = ((@_LazySTT._ensure _ oom_whisper unloaded).1, Raise MemoryError).
Proof.
  destruct (@load_failure_leaves_handle_unloaded _ oom_whisper unloaded world0
              MemoryError eq_refl eq_refl)
    as (Hensure & _ & _ & Hlegacy & Hunloaded & _).
  rewrite Hensure. split; [reflexivity|]. split; [exact Hunloaded|].
  exact (Hlegacy "a.wav").
Defined.



End Witnesses.

(** * Further properties of the code *)

(** ** Text normalisation *)

Section StripMore.

Lemma lstrip_spaces_app (pre s : pystr) :
  Forall is_space pre → lstrip (pre ++ s) = lstrip s.
Proof. induction 1 as [|c pre Hc _ IH]; simpl; [done|]. by rewrite Hc. Qed.

Lemma lstrip_head_kept (s : pystr) (c : N) :
  head s = Some c → py_isspace c = false → lstrip s = s.
Proof. destruct s as [|d s]; [done|]. intros [= ->] Hc. simpl. by rewrite Hc. Qed.

Lemma strip_exact (pre core suf : pystr) (a b : N) :
  Forall is_space pre → Forall is_space suf →
  head core = Some a → py_isspace a = false →
  last core = Some b → py_isspace b = false →
  strip (pre ++ core ++ suf) = core.
Proof.
  intros Hpre Hsuf Ha Hna Hb Hnb. unfold strip, rstrip.
  rewrite lstrip_spaces_app by done.
  rewrite (lstrip_head_kept (core ++ suf) a); [|by destruct core|done].
  rewrite reverse_app, lstrip_spaces_app by by apply Forall_reverse.
  rewrite (lstrip_head_kept (reverse core) b); [|by rewrite head_reverse|done].
  apply reverse_involutive.
Qed.

Lemma strip_fixed_point (s : pystr) : strip (strip s) = strip s.
Proof.
  destruct (strip_spec s) as (_ & Hhead & Hlast).
  destruct (strip s) as [|c t] eqn:Hs; [done|].
  destruct (last (c :: t)) as [b|] eqn:Hb.
  - rewrite <- (app_nil_l (c :: t)) at 1. rewrite <- (app_nil_r (c :: t)) at 1.
    by apply (strip_exact [] (c :: t) [] c b); auto.
  - by apply last_None in Hb.
Qed.

Lemma strip_length (s : pystr) : length (strip s) ≤ length s.
Proof.
  destruct (strip_spec s) as ((pre & suf & Hs & _) & _).
  rewrite Hs at 2. rewrite !length_app. lia.
Qed.

End StripMore.

(** ** More about the service object *)

Section ServiceMore.
Context `{Whisper}.



Lemma transcribe_audio_calls (self : Service) (path : string)
    (lang : option string) (s : St) (p : string) (o : gmap string PyVal) :
  EvTranscribe p o
  ∈ trace (SpeechToTextService.transcribe_audio self path lang s).1 →
  EvTranscribe p o ∈ trace s
  ∨ (p = path ∧ o = SpeechToTextService.build_options lang).
Proof.
  destruct (decide (path ∈ files (world s))) as [Hp|Hp].
  - destruct (model self) as [m|] eqn:Hm.
    + rewrite (transcribe_audio_found _ _ _ _ m) by done.
      destruct (model_transcribe _ _ _ _) as [w' [r|e]]; simpl;
        generalize (SpeechToTextService.build_options lang); intros options;
        rewrite !elem_of_app, !elem_of_cons, elem_of_nil;
        (intros [?|[?|[[= -> ->]|[?|[]]]]]; try done; [by left|by right]).
    + rewrite transcribe_audio_no_model by done. simpl.
      rewrite !elem_of_app, !elem_of_cons, elem_of_nil.
      intros [?|[?|[?|[]]]]; try done. by left.
  - rewrite transcribe_audio_missing by done. simpl.
    rewrite !elem_of_app, !elem_of_cons, elem_of_nil.
    intros [?|[?|[]]]; try done. by left.
Qed.

(** X1: an exception raised by the model's [transcribe] reaches the
    caller as it is, after one error log line; the model was called
    once and the host is as the model left it. *)
Theorem model_failure_propagates (self : Service) (path : string)
    (lang : option string) (s : St) (m : Model) (w' : World) (e : exn) :
  model self = Some m →
  path ∈ files (world s) →
  model_transcribe m path (SpeechToTextService.build_options lang) (world s)
  = (w', Raise e) →
  SpeechToTextService.transcribe_audio self path lang s
  = (logged [EvInfo (Transcribing path);
             EvTranscribe path (SpeechToTextService.build_options lang);
             EvError (TranscriptionFailed e)]
       (set_world w' s),
     Raise e).
Proof.
  intros Hm Hp Hr. rewrite (transcribe_audio_found _ _ _ _ m) by done.
  by rewrite Hr.
Qed.

(** X2: the constructor loads nothing. A service that was built but
    whose [_load_model] was not called fails on an existing file with
    [AttributeError], without any model load or model call and without
    touching the host. *)
Theorem constructed_service_has_no_model (model_size_arg : option string)
    (path : string) (lang : option string) (s : St) :
  path ∈ files (world s) →
  (svc ← SpeechToTextService.__init__ model_size_arg;
   SpeechToTextService.transcribe_audio svc path lang) s
  = (logged [EvInfo (Transcribing path);
             EvError (TranscriptionFailed (AttributeError "transcribe"))] s,
     Raise (AttributeError "transcribe")).
Proof.
  intros Hp. unfold mbind at 1. unfold M_bind.
  unfold SpeechToTextService.__init__. unfold_m.
  by rewrite transcribe_audio_no_model.
Qed.

(** X3: a model result without segments (the key missing, or an empty
    list) gives segment count 0, duration 0 and confidence 0; nothing
    fails. *)
Theorem metadata_without_segments (self : Service) (path : string)
    (lang : option string) (s : St) (m : Model) (w' : World)
    (r : TranscribeResult) :
  model self = Some m →
  path ∈ files (world s) →
  model_transcribe m path (SpeechToTextService.build_options lang) (world s)
  = (w', Ok r) →
  r_segments r = None ∨ r_segments r = Some [] →
  ∃ s' md,
    SpeechToTextService.transcribe_audio self path lang s
    = (s', Ok (strip (r_text r), md))
    ∧ md_segments md = 0
    ∧ md_duration md = num_zero
    ∧ md_confidence md = num_zero.
Proof.
  intros Hm Hp Hr Hsegs. rewrite (transcribe_audio_found _ _ _ _ m) by done.
  rewrite Hr. eexists _, _. split; [done|].
  unfold SpeechToTextService.build_metadata. simpl.
  by destruct Hsegs as [-> | ->].
Qed.

(** X4: the duration is read from the last segment alone: it is that
    segment's end, or 0 when that segment has no end, whatever the
    earlier segments hold. *)
Theorem duration_from_last_segment (self : Service) (path : string)
    (lang : option string) (s : St) (m : Model) (w' : World)
    (r : TranscribeResult) (earlier : list Segment) (final : Segment) :
  model self = Some m →
  path ∈ files (world s) →
  model_transcribe m path (SpeechToTextService.build_options lang) (world s)
  = (w', Ok r) →
  r_segments r = Some (earlier ++ [final]) →
  ∃ s' md,
    SpeechToTextService.transcribe_audio self path lang s
    = (s', Ok (strip (r_text r), md))
    ∧ md_duration md = default num_zero (seg_end final)
    ∧ md_segments md = S (length earlier).
Proof.
  intros Hm Hp Hr Hsegs. rewrite (transcribe_audio_found _ _ _ _ m) by done.
  rewrite Hr. eexists _, _. split; [done|].
  unfold SpeechToTextService.build_metadata, SpeechToTextService.duration_of.
  simpl. rewrite Hsegs. simpl. split.
  - destruct (earlier ++ [final]) as [|s0 l] eqn:Hl.
    + by destruct earlier.
    + by rewrite <- Hl, last_snoc.
  - rewrite length_app. simpl. lia.
Qed.

(** X5: the returned text is exactly the part of the model's text
    between its leading and its trailing whitespace; whitespace inside
    that part is kept. *)
Theorem returned_text_is_core (self : Service) (path : string)
    (lang : option string) (s : St) (m : Model) (w' : World)
    (r : TranscribeResult) (pre core suf : pystr) (a b : N) :
  model self = Some m →
  path ∈ files (world s) →
  model_transcribe m path (SpeechToTextService.build_options lang) (world s)
  = (w', Ok r) →
  r_text r = pre ++ core ++ suf →
  Forall is_space pre → Forall is_space suf →
  head core = Some a → py_isspace a = false →
  last core = Some b → py_isspace b = false →
  ∃ s' md,
    SpeechToTextService.transcribe_audio self path lang s = (s', Ok (core, md)).
Proof.
  intros Hm Hp Hr Ht Hpre Hsuf Ha Hna Hb Hnb.
  rewrite (transcribe_audio_found _ _ _ _ m) by done.
  rewrite Hr, Ht. eexists _, _.
  by rewrite (strip_exact pre core suf a b).
Qed.

(** X6: the returned text is already normalised (stripping it again
    changes nothing) and never longer than the model's text. *)
Theorem returned_text_normalised (self : Service) (path : string)
    (lang : option string) (s : St) (m : Model) (w' : World)
    (r : TranscribeResult) :
  model self = Some m →
  path ∈ files (world s) →
  model_transcribe m path (SpeechToTextService.build_options lang) (world s)
  = (w', Ok r) →
  ∃ s' text md,
    SpeechToTextService.transcribe_audio self path lang s = (s', Ok (text, md))
    ∧ strip text = text
    ∧ length text ≤ length (r_text r).
Proof.
  intros Hm Hp Hr. rewrite (transcribe_audio_found _ _ _ _ m) by done.
  rewrite Hr. eexists _, _, _. split; [done|].
  split; [apply strip_fixed_point|apply strip_length].
Qed.

End ServiceMore.

Section OptionsAndLoading.
Context `{Whisper}.

(** X7: the options hold the keys task and fp16, the key language
    exactly when a hint is given, and no other key; two different hints
    never give the same options. *)
Theorem options_keys_and_hint (lang lang' : option string) :
  (∀ k, is_Some (SpeechToTextService.build_options lang !! k)
        ↔ k = "task" ∨ k = "fp16" ∨ (k = "language" ∧ is_Some lang))
  ∧ (SpeechToTextService.build_options lang
     = SpeechToTextService.build_options lang' → lang = lang').
Proof.
  split.
  - intros k. unfold SpeechToTextService.build_options. split.
    + intros [v Hv]. apply map_lookup_filter_Some in Hv as [Hv Hnone].
      simpl in Hnone.
      destruct (decide (k = "language")) as [->|Hl].
      { rewrite lookup_insert_eq in Hv. injection Hv as <-.
        right. right. split; [done|]. by destruct lang. }
      rewrite lookup_insert_ne in Hv by done.
      destruct (decide (k = "task")) as [->|Ht]; [by left|].
      rewrite lookup_insert_ne in Hv by done.
      destruct (decide (k = "fp16")) as [->|Hf]; [right; by left|].
      by rewrite lookup_singleton_ne in Hv.
    + intros [->|[->|[-> [l ->]]]].
      * exists (PyStr "transcribe"). destruct lang; vm_compute; reflexivity.
      * exists (PyBool false). destruct lang; vm_compute; reflexivity.
      * exists (PyStr l). vm_compute. reflexivity.
  - intros Heq.
    apply (f_equal (λ o : gmap string PyVal, o !! "language")) in Heq.
    destruct lang, lang'; vm_compute in Heq; congruence.
Qed.

Lemma load_model_run (self : Service) (s : St) :
  SpeechToTextService._load_model self s
  = match whisper_load_model (model_size self) (world s) with
    | (w', Ok m) =>
        (logged [EvInfo (LoadingModel (model_size self));
                 EvLoadModel (model_size self); EvInfo ModelLoaded]
           (set_world w' s),
         Ok {| model_size := model_size self; model := Some m |})
    | (w', Raise e) =>
        (logged [EvInfo (LoadingModel (model_size self));
                 EvLoadModel (model_size self); EvError (LoadFailed e)]
           (set_world w' s),
         Raise e)
    end.
Proof.
  unfold SpeechToTextService._load_model. unfold_m. simpl.
  destruct (whisper_load_model (model_size self) (world s)) as [w' [m|e]];
    unfold logged, set_world; simpl; by rewrite <- !app_assoc.
Qed.

(** X8: [_load_model] has no guard: whether or not the service already
    has a model, every call asks whisper for the service's size once.
    On success the new model replaces the old one and the size is kept;
    on failure the loader's exception is raised as it is. *)
Theorem load_model_always_loads (self : Service) (s : St) :
  count_loads (trace (SpeechToTextService._load_model self s).1)
  = count_loads (trace s) + 1
  ∧ EvLoadModel (model_size self)
    ∈ trace (SpeechToTextService._load_model self s).1
  ∧ (∀ w' m, whisper_load_model (model_size self) (world s) = (w', Ok m) →
       (SpeechToTextService._load_model self s).2
       = Ok {| model_size := model_size self; model := Some m |})
  ∧ (∀ w' e, whisper_load_model (model_size self) (world s) = (w', Raise e) →
       (SpeechToTextService._load_model self s).2 = Raise e).
Proof.
  rewrite load_model_run.
  destruct (whisper_load_model (model_size self) (world s)) as [w' [m|e]]; simpl.
  - rewrite count_loads_app. split; [done|]. split.
    { apply elem_of_app. right. apply elem_of_cons. right.
      apply elem_of_cons. by left. }
    split; [by intros ? ? [= _ ->]|by intros ? ? [=]].
  - rewrite count_loads_app. split; [done|]. split.
    { apply elem_of_app. right. apply elem_of_cons. right.
      apply elem_of_cons. by left. }
    split; [by intros ? ? [=]|by intros ? ? [= _ ->]].
Qed.

Lemma resolve_model_size_nonempty (env_model model_size_arg : option string) :
  SpeechToTextService.resolve_model_size env_model model_size_arg ≠ "".
Proof.
  unfold SpeechToTextService.resolve_model_size, SpeechToTextService.truthy.
  destruct env_model as [e|]; simpl.
  - destruct (decide (e = "")) as [->|He].
    + simpl. destruct model_size_arg as [a|]; simpl; [|done].
      destruct (decide (a = "")) as [->|Ha]; [done|].
      by rewrite bool_decide_eq_false_2.
    + by rewrite bool_decide_eq_false_2.
  - destruct model_size_arg as [a|]; simpl; [|done].
    destruct (decide (a = "")) as [->|Ha]; [done|].
    by rewrite bool_decide_eq_false_2.
Qed.


(** X9: whatever the argument and the environment, the constructor
    succeeds, changes nothing, and gives a service without a model whose
    size name is not empty. *)
Theorem constructed_size_never_empty (model_size_arg : option string) (s : St) :
  ∃ svc,
    SpeechToTextService.__init__ model_size_arg s = (s, Ok svc)
    ∧ model_size svc ≠ ""
    ∧ model svc = None.
Proof.
  eexists. split; [reflexivity|]. simpl.
  split; [apply resolve_model_size_nonempty|done].
Qed.

End OptionsAndLoading.

(** ** More about the shared handle *)

Section HandleMore.
Context `{Whisper}.



Lemma ensure_no_transcribe (s : St) (p : string) (o : gmap string PyVal) :
  EvTranscribe p o ∈ trace (_LazySTT._ensure s).1 → EvTranscribe p o ∈ trace s.
Proof.
  destruct (_service (stt_service s)) as [svc|] eqn:Hs.
  - by rewrite (ensure_loaded _ svc).
  - rewrite ensure_unloaded, instantiate_run by done.
    destruct (whisper_load_model _ _) as [w' [m|e]]; simpl;
      rewrite elem_of_app; (intros [?|Hin]; [done|]); exfalso;
      unfold load_events in Hin;
      rewrite ?elem_of_app, ?elem_of_cons, ?elem_of_nil in Hin;
      destruct Hin as [?|[?|[?|[?|[]]]]]; done.
Qed.

Lemma stt_transcribe_audio_run (path : string) (lang : option string) (s : St) :
  stt_transcribe_audio path lang s
  = match _LazySTT._ensure s with
    | (s', Ok _) =>
        match _service (stt_service s') with
        | Some svc => SpeechToTextService.transcribe_audio svc path lang s'
        | None => (s', Raise (AttributeError "NoneType"))
        end
    | (s', Raise e) => (s', Raise e)
    end.
Proof.
  unfold stt_transcribe_audio. unfold mbind at 1. unfold M_bind.
  rewrite getattr_run. destruct (_LazySTT._ensure s) as [s' [[]|e]]; [|done].
  by destruct (_service (stt_service s')).
Qed.

Lemma legacy_state (path : string) (s : St) :
  (transcribe_audio path s).1 = (stt_transcribe_audio path None s).1.
Proof.
  unfold transcribe_audio. unfold mbind at 1. unfold M_bind.
  by destruct (stt_transcribe_audio path None s) as [s' [[text md]|e]].
Qed.




(** X12: a call through the handle invokes the model's [transcribe]
    with the caller's path and the options built from the caller's hint,
    and with nothing else; the legacy function therefore never passes a
    language and always leaves detection to the model. *)
Theorem handle_calls_model_as_asked (path : string) (lang : option string)
    (s : St) :
  (∀ p o, EvTranscribe p o ∈ trace (stt_transcribe_audio path lang s).1 →
     EvTranscribe p o ∈ trace s
     ∨ (p = path ∧ o = SpeechToTextService.build_options lang))
  ∧ (∀ p o, EvTranscribe p o ∈ trace (transcribe_audio path s).1 →
       EvTranscribe p o ∈ trace s ∨ (p = path ∧ o !! "language" = None)).
Proof.
  assert (Hstt : ∀ lang0 p o,
    EvTranscribe p o ∈ trace (stt_transcribe_audio path lang0 s).1 →
    EvTranscribe p o ∈ trace s
    ∨ (p = path ∧ o = SpeechToTextService.build_options lang0)).
  { intros lang0 p o. rewrite stt_transcribe_audio_run.
    pose proof (ensure_no_transcribe s p o) as Hens.
    destruct (_LazySTT._ensure s) as [s' [[]|e]]; simpl in *; [|by left; auto].
    destruct (_service (stt_service s')) as [svc|]; simpl; [|by left; auto].
    intros [Hin|Hnew]%transcribe_audio_calls; [left; auto|by right]. }
  split; [apply Hstt|].
  intros p o. rewrite legacy_state.
  intros [Hin|[-> ->]]%Hstt; [by left|]. right. split; [done|].
  vm_compute. reflexivity.
Qed.

(** X13: the first call on an unloaded handle loads the model of the
    configured size, stores it, and then transcribes with it. The path
    is looked up in the host as the load left it, and the caller of the
    legacy function gets the stripped text. *)
Theorem first_call_loads_then_transcribes (path : string) (s : St)
    (w1 w2 : World) (m : Model) (r : TranscribeResult) :
  _service (stt_service s) = None →
  whisper_load_model (lazy_model_size (world s)) (world s) = (w1, Ok m) →
  path ∈ files w1 →
  model_transcribe m path (SpeechToTextService.build_options None) w1
  = (w2, Ok r) →
  ∃ s',
    transcribe_audio path s = (s', Ok (strip (r_text r)))
    ∧ world s' = w2
    ∧ _service (stt_service s')
      = Some {| model_size := lazy_model_size (world s); model := Some m |}
    ∧ trace s'
      = trace s ++ load_events (world s)
        ++ [EvInfo ModelLoaded; EvInfo (Transcribing path);
            EvTranscribe path (SpeechToTextService.build_options None);
            EvInfo (Completed (take 100 (strip (r_text r))))].
Proof.
  intros Hs Hl Hp Hr. unfold transcribe_audio. unfold mbind at 1. unfold M_bind.
  rewrite stt_transcribe_audio_unloaded, instantiate_run, Hl by done.
  rewrite (transcribe_audio_found _ _ _ _ m) by done.
  simpl. rewrite Hr. eexists. split; [reflexivity|]. simpl.
  split; [done|]. split; [done|].
  by rewrite <- !app_assoc.
Qed.

(** X22: a failed load is never remembered. With a loader that fails
    every time, each of [n] calls made one after another runs the load
    again, and the handle is still empty afterwards. *)
Theorem failing_loader_retried_every_call (n : nat) (s : St) :
  (∀ size w, ∃ w' e, whisper_load_model size w = (w', Raise e)) →
  _service (stt_service s) = None →
  count_loads (trace (ensure_calls n s)) = count_loads (trace s) + n
  ∧ _service (stt_service (ensure_calls n s)) = None.
Proof.
  intros Hfail. revert s. induction n as [|n IH]; intros s Hs; simpl.
  - split; [lia|done].
  - pose proof (ensure_unloaded_loads s Hs) as Hloads.
    assert (Hnone : _service (stt_service (_LazySTT._ensure s).1) = None).
    { rewrite ensure_unloaded, instantiate_run by done.
      destruct (Hfail (lazy_model_size (world s)) (world s)) as (w' & e & ->).
      done. }
    destruct (IH _ Hnone) as [Hcount Hstill].
    split; [|done]. rewrite Hcount, Hloads. lia.
Qed.

End HandleMore.

(** ** More about uploads *)

Section UploadMore.
Context `{Whisper} `{Tempfile}.

(** When the temporary file cannot be created, the exception of
    [NamedTemporaryFile] reaches the caller and nothing else is done:
    no save, no model call, no unlink. *)
Lemma tempfile_failure_propagates (self : Service) (audio_file : FileStorage)
    (lang : option string) (s : St) (w1 : World) (e : exn) :
  NamedTemporaryFile (world s) = (w1, Raise e) →
  SpeechToTextService.transcribe_audio_file self audio_file lang s
  = (set_world w1 s, Raise e).
Proof.
  intros Ht. unfold SpeechToTextService.transcribe_audio_file.
  unfold mbind at 1. unfold M_bind, on_world at 1. by rewrite Ht.
Qed.

(** X14: when saving the upload raises, the exception reaches the
    caller before the [try] block is entered: the model is not called,
    no unlink is attempted, and a temporary file that is there after the
    failed save stays there. *)
Theorem failed_save_leaves_temp_file (self : Service) (audio_file : FileStorage)
    (lang : option string) (s : St) (w1 w2 : World) (name : string) (e : exn) :
  NamedTemporaryFile (world s) = (w1, Ok name) →
  save audio_file name w1 = (w2, Raise e) →
  ∃ s',
    SpeechToTextService.transcribe_audio_file self audio_file lang s
    = (s', Raise e)
    ∧ trace s' = trace s
    ∧ (name ∈ files w2 → name ∈ files (world s')).
Proof.
  intros Ht Hs. exists (set_world w2 s). split; [|done].
  unfold SpeechToTextService.transcribe_audio_file.
  unfold mbind at 1 2. unfold M_bind, on_world at 1 2. simpl.
  rewrite Ht. simpl. by rewrite Hs.
Qed.

(** X15: the cleanup removes the temporary file and nothing else: every
    other path exists after the call exactly if it existed when the
    transcription ended, and the environment is untouched. *)
Theorem cleanup_spares_other_files (self : Service) (audio_file : FileStorage)
    (lang : option string) (s : St) (w1 w2 : World) (name : string) :
  NamedTemporaryFile (world s) = (w1, Ok name) →
  save audio_file name w1 = (w2, Ok ()) →
  let s1 := (SpeechToTextService.transcribe_audio self name lang
               (set_world w2 s)).1 in
  let s2 := (SpeechToTextService.transcribe_audio_file self audio_file lang s).1 in
  (∀ p, p ≠ name → (p ∈ files (world s2) ↔ p ∈ files (world s1)))
  ∧ environ (world s2) = environ (world s1)
  ∧ locked (world s2) = locked (world s1).
Proof.
  intros Ht Hs s1 s2. subst s1 s2.
  rewrite (transcribe_audio_file_staged _ _ _ _ w1 w2 name) by done. simpl.
  set (s1 := (SpeechToTextService.transcribe_audio self name lang
                (set_world w2 s)).1).
  unfold unlink.
  destruct (decide (name ∈ files (world s1))); [|done].
  destruct (decide (name ∈ locked (world s1))); [done|]. simpl.
  split; [|done]. intros p Hp. rewrite elem_of_difference, elem_of_singleton.
  split; [by intros [Hin _]|by intros Hin].
Qed.

(** X16: with a fresh temporary name, collaborators that leave the set
    of files alone, and a temporary file that the operating system lets
    be removed (it is not locked, before or after the model ran), a call
    leaves the files exactly as it found them, whether the model
    succeeds, raises, or the service has no model at all. *)
Theorem upload_leaves_files_as_found (self : Service) (audio_file : FileStorage)
    (lang : option string) (s : St) (w1 w2 : World) (name : string) :
  name ∉ files (world s) →
  NamedTemporaryFile (world s) = (w1, Ok name) →
  files w1 = files (world s) ∪ {[name]} →
  save audio_file name w1 = (w2, Ok ()) →
  files w2 = files w1 →
  name ∉ locked w2 →
  (∀ m, model self = Some m →
     files (model_transcribe m name
              (SpeechToTextService.build_options lang) w2).1 = files w2
     ∧ name ∉ locked (model_transcribe m name
                        (SpeechToTextService.build_options lang) w2).1) →
  files (world (SpeechToTextService.transcribe_audio_file
                  self audio_file lang s).1)
  = files (world s).
Proof.
  intros Hfresh Ht Hf1 Hs Hf2 Hl2 Hmodel.
  rewrite (transcribe_audio_file_staged _ _ _ _ w1 w2 name) by done. simpl.
  assert (Hin : name ∈ files w2).
  { rewrite Hf2, Hf1. apply elem_of_union. right. by apply elem_of_singleton. }
  assert (Hrestore : ∀ w3, files w3 = files w2 → name ∉ locked w3 →
                           files (unlink name w3).1 = files (world s)).
  { intros w3 Hf3 Hl3. unfold unlink.
    rewrite decide_True by by rewrite Hf3.
    rewrite decide_False by done. simpl.
    rewrite Hf3, Hf2, Hf1. apply set_eq. intros p.
    rewrite elem_of_difference, elem_of_union, elem_of_singleton.
    split.
    - intros [[Hp|Hp] Hne]; [exact Hp|by destruct Hne].
    - intros Hp. split; [by left|]. by intros ->. }
  destruct (model self) as [m|] eqn:Hm.
  - destruct (Hmodel m eq_refl) as [Hf3 Hl3].
    rewrite (transcribe_audio_found _ _ _ _ m) by done. simpl.
    destruct (model_transcribe m name (SpeechToTextService.build_options lang) w2)
      as [w3 [r|e]]; simpl in *; by apply Hrestore.
  - rewrite transcribe_audio_no_model by done. simpl. by apply Hrestore.
Qed.

(** X17: when the staged file is not there by the time the
    transcription starts, the caller gets [FileNotFoundError] for the
    temporary path; the unlink then fails too, and its error is dropped
    without changing the outcome or the host. *)
Theorem missing_staged_file (self : Service) (audio_file : FileStorage)
    (lang : option string) (s : St) (w1 w2 : World) (name : string) :
  NamedTemporaryFile (world s) = (w1, Ok name) →
  save audio_file name w1 = (w2, Ok ()) →
  name ∉ files w2 →
  SpeechToTextService.transcribe_audio_file self audio_file lang s
  = (logged [EvError (TranscriptionFailed (FileNotFoundError name));
             EvUnlink name]
       (set_world w2 s),
     Raise (FileNotFoundError name)).
Proof.
  intros Ht Hs Hout.
  rewrite (transcribe_audio_file_staged _ _ _ _ w1 w2 name) by done.
  rewrite transcribe_audio_missing by done. simpl.
  unfold after_cleanup, unlink. simpl.
  rewrite decide_False by done. simpl.
  unfold logged, set_world. simpl. by rewrite <- app_assoc.
Qed.

End UploadMore.

(** ** More about overlapping callers *)

Section InterleavingMore.
Context `{Whisper}.
Import Interleaving.

Lemma step_thread_keeps_loaded (p : pc) (s : St) :
  is_Some (_service (stt_service s)) →
  is_Some (_service (stt_service (step_thread p s).1)).
Proof.
  intros [svc0 Hs]. destruct p as [| |svc| |e]; simpl; try by eauto.
  - rewrite Hs. simpl. by eauto.
  - rewrite instantiate_run.
    destruct (whisper_load_model _ _) as [w' [m|e]]; simpl; by eauto.
Qed.

Lemma step_thread_returns_loaded (p : pc) (s : St) :
  p ≠ Returned →
  (step_thread p s).2 = Returned →
  is_Some (_service (stt_service (step_thread p s).1)).
Proof.
  intros Hp. destruct p as [| |svc| |e]; simpl; try by eauto.
  - destruct (_service (stt_service s)) eqn:Hs; simpl; [|done].
    rewrite Hs. by eauto.
  - rewrite instantiate_run.
    destruct (whisper_load_model _ _) as [w' [m|e]]; simpl; done.
Qed.

Lemma step_returned_see_service (c : Conf) (tid : nat) :
  returned_see_service c → returned_see_service (step c tid).
Proof.
  intros Hinv. unfold step.
  destruct (threads c !! tid) as [p|] eqn:Hl; [|done].
  pose proof (step_thread_keeps_loaded p (shared c)) as Hkeep.
  pose proof (step_thread_returns_loaded p (shared c)) as Hret.
  destruct (step_thread p (shared c)) as [s' p']. simpl in *.
  intros tid' Hl'. simpl in *.
  destruct (decide (tid' = tid)) as [->|Hne].
  - rewrite list_lookup_insert_eq in Hl' by by eapply lookup_lt_Some.
    injection Hl' as ->.
    assert (Hcase : p = Returned ∨ p ≠ Returned)
      by (destruct p; (by left) || (by right)).
    destruct Hcase as [->|Hp]; [|by apply Hret].
    apply Hkeep. by apply (Hinv tid).
  - rewrite list_lookup_insert_ne in Hl' by done.
    apply Hkeep. by apply (Hinv tid').
Qed.

Lemma run_returned_see_service (schedule : list nat) (c : Conf) :
  returned_see_service c → returned_see_service (run schedule c).
Proof.
  revert c. induction schedule as [|tid schedule IH]; intros c Hinv; [done|].
  simpl. apply IH. by apply step_returned_see_service.
Qed.

(** X18: however the callers are interleaved, a caller that has
    returned from [_ensure] finds a service in the handle: the handle is
    never emptied again, and no caller returns before a service is
    stored. *)
Theorem returned_callers_find_service (n : nat) (schedule : list nat) (s : St)
    (tid : nat) :
  threads (run schedule (first_callers n s)) !! tid = Some Returned →
  is_Some (_service (stt_service (shared (run schedule (first_callers n s))))).
Proof.
  apply run_returned_see_service. intros tid' Hl. simpl in Hl.
  by apply lookup_replicate in Hl as [? _].
Qed.

Lemma step_loaded_idle (c : Conf) (tid : nat) :
  is_Some (_service (stt_service (shared c))) →
  Forall idle (threads c) →
  shared (step c tid) = shared c ∧ Forall idle (threads (step c tid)).
Proof.
  intros [svc Hs] Hidle. unfold step.
  destruct (threads c !! tid) as [p|] eqn:Hl; [|done].
  assert (Hp : idle p) by by eapply Forall_lookup_1.
  destruct Hp as [-> | ->]; simpl.
  - rewrite Hs. simpl. split; [done|]. apply Forall_insert; [done|by right].
  - split; [done|]. apply Forall_insert; [done|by right].
Qed.

(** X19: on a handle that is already loaded, any number of callers in
    any interleaving leave the shared state as it was: nothing is
    loaded, stored or logged. *)
Theorem loaded_handle_ignores_callers (n : nat) (schedule : list nat) (s : St) :
  is_Some (_service (stt_service s)) →
  shared (run schedule (first_callers n s)) = s.
Proof.
  intros Hs.
  assert (Hgen : ∀ c, shared c = s → Forall idle (threads c) →
                      shared (run schedule c) = s).
  { induction schedule as [|tid schedule IH]; intros c Hc Hidle; [done|].
    simpl. destruct (step_loaded_idle c tid) as [Hsh Hid]; [by rewrite Hc|done|].
    apply IH; [by rewrite Hsh|done]. }
  apply Hgen; [done|]. simpl. apply Forall_replicate. by left.
Qed.

End InterleavingMore.

(** ** The translation test script *)

Section TestTranslationFacts.
Context `{TestTranslation.TranslationService}.
Import TestTranslation.






End TestTranslationFacts.

(** ** Concrete runs of the further properties *)

Section MoreWitnesses.
Import Examples.

Lemma tmpq_fresh : "/tmp/tmpq.webm" ∉ files world0.
Proof.
  change ("/tmp/tmpq.webm" ∉ ({["a.wav"]} : gset string)).
  by intros [=]%elem_of_singleton.
Qed.

Lemma tmpq_staged : "/tmp/tmpq.webm" ∈ files (add_file "/tmp/tmpq.webm" world0).
Proof. apply elem_of_union. right. by apply elem_of_singleton. Qed.

Lemma model_failure_propagates_witness :
  (@SpeechToTextService.transcribe_audio _ deaf_whisper
     deaf_service "a.wav" (Some "en") unloaded).2
  = Raise (RuntimeError "decode").
Proof.
  rewrite (@model_failure_propagates _ deaf_whisper deaf_service "a.wav"
             (Some "en") unloaded () world0 (RuntimeError "decode")
             eq_refl a_wav_exists eq_refl).
  reflexivity.
Defined.

Lemma constructed_service_has_no_model_witness :
  ((svc ← @SpeechToTextService.__init__ _ ok_whisper (Some "base");
    SpeechToTextService.transcribe_audio svc "a.wav" None) unloaded).2
  = Raise (AttributeError "transcribe").
Proof.
  rewrite (@constructed_service_has_no_model _ ok_whisper (Some "base") "a.wav"
             None unloaded a_wav_exists).
  reflexivity.
Defined.

Lemma metadata_without_segments_witness :
  ∃ s' md,
    @SpeechToTextService.transcribe_audio _ silent_whisper
      silent_service "a.wav" None unloaded
    = (s', Ok ([], md))
    ∧ md_segments md = 0 ∧ md_duration md = 0%float ∧ md_confidence md = 0%float.
Proof.
  destruct (@metadata_without_segments _ silent_whisper silent_service "a.wav"
              None unloaded () world0 result_silence
              eq_refl a_wav_exists eq_refl (or_introl eq_refl))
    as (s' & md & Hrun & Hrest).
  exists s', md. split; [exact Hrun|exact Hrest].
Defined.

Lemma duration_from_last_segment_witness :
  ∃ s' md,
    @SpeechToTextService.transcribe_audio _ ok_whisper
      ok_service "a.wav" None unloaded
    = (s', Ok ([104; 105]%N, md))
    ∧ md_duration md = 3%float ∧ md_segments md = 2.
Proof.
  destruct (@duration_from_last_segment _ ok_whisper ok_service "a.wav"
              None unloaded () world0 result_hi
              [seg 1.5 (Some 0.1%float)] (seg 3 (Some 0.3%float))
              eq_refl a_wav_exists eq_refl eq_refl)
    as (s' & md & Hrun & Hrest).
  exists s', md. split; [exact Hrun|exact Hrest].
Defined.

Lemma returned_text_is_core_witness :
  ∃ s' md,
    @SpeechToTextService.transcribe_audio _ ok_whisper
      ok_service "a.wav" None unloaded
    = (s', Ok ([104; 105]%N, md)).
Proof.
  apply (@returned_text_is_core _ ok_whisper ok_service "a.wav" None unloaded
           () world0 result_hi [32; 32]%N [104; 105]%N [32; 10]%N 104%N 105%N
           eq_refl a_wav_exists eq_refl eq_refl);
    repeat constructor.
Defined.

Lemma returned_text_normalised_witness :
  ∃ s' text md,
    @SpeechToTextService.transcribe_audio _ ok_whisper
      ok_service "a.wav" None unloaded
    = (s', Ok (text, md))
    ∧ strip text = text ∧ length text ≤ 6.
Proof.
  exact (@returned_text_normalised _ ok_whisper ok_service "a.wav" None unloaded
           () world0 result_hi eq_refl a_wav_exists eq_refl).
Defined.




Lemma first_call_loads_then_transcribes_witness :
  ∃ s', @transcribe_audio _ ok_whisper "a.wav" unloaded = (s', Ok [104; 105]%N)
        ∧ count_loads (trace s') = 1.
Proof.
  destruct (@first_call_loads_then_transcribes _ ok_whisper "a.wav" unloaded
              world0 world0 () result_hi eq_refl eq_refl a_wav_exists eq_refl)
    as (s' & Hrun & _ & _ & Htrace).
  exists s'. split; [exact Hrun|]. rewrite Htrace. reflexivity.
Defined.

Lemma tempfile_failure_propagates_witness :
  @SpeechToTextService.transcribe_audio_file _ ok_whisper no_tempfile
    ok_service upload None unloaded
  = (unloaded, Raise (PermissionError "/tmp")).
Proof.
  exact (@tempfile_failure_propagates _ ok_whisper no_tempfile ok_service upload
           None unloaded world0 (PermissionError "/tmp") eq_refl).
Defined.

Lemma failed_save_leaves_temp_file_witness :
  ∃ s',
    @SpeechToTextService.transcribe_audio_file _ ok_whisper one_tempfile
      ok_service broken_upload None unloaded
    = (s', Raise (RuntimeError "stream closed"))
    ∧ "/tmp/tmpq.webm" ∈ files (world s').
Proof.
  destruct (@failed_save_leaves_temp_file _ ok_whisper one_tempfile ok_service
              broken_upload None unloaded
              (add_file "/tmp/tmpq.webm" world0) (add_file "/tmp/tmpq.webm" world0)
              "/tmp/tmpq.webm" (RuntimeError "stream closed") eq_refl eq_refl)
    as (s' & Hrun & _ & Hleft).
  exists s'. split; [exact Hrun|exact (Hleft tmpq_staged)].
Defined.

Lemma cleanup_spares_other_files_witness :
  "a.wav" ∈ files (world (@SpeechToTextService.transcribe_audio_file _ deaf_whisper
                            one_tempfile deaf_service upload None unloaded).1).
Proof.
  destruct (@cleanup_spares_other_files _ deaf_whisper one_tempfile deaf_service
              upload None unloaded
              (add_file "/tmp/tmpq.webm" world0) (add_file "/tmp/tmpq.webm" world0)
              "/tmp/tmpq.webm" eq_refl eq_refl)
    as (Hother & _).
  apply (Hother "a.wav"); [done|].
  rewrite (@transcribe_audio_found _ deaf_whisper _ _ _ _ ()); [|done|exact tmpq_staged].
  simpl. apply elem_of_union. left. exact a_wav_exists.
Defined.

Lemma upload_leaves_files_as_found_witness :
  files (world (@SpeechToTextService.transcribe_audio_file _ deaf_whisper
                  one_tempfile deaf_service upload None unloaded).1)
  = files world0.
Proof.
  apply (@upload_leaves_files_as_found _ deaf_whisper one_tempfile deaf_service
           upload None unloaded
           (add_file "/tmp/tmpq.webm" world0) (add_file "/tmp/tmpq.webm" world0)
           "/tmp/tmpq.webm");
    try reflexivity; [exact tmpq_fresh|apply not_elem_of_empty|].
  intros m _. split; [reflexivity|apply not_elem_of_empty].
Defined.

Lemma missing_staged_file_witness :
  (@SpeechToTextService.transcribe_audio_file _ ok_whisper ghost_tempfile
     ok_service upload None unloaded).2
  = Raise (FileNotFoundError "/tmp/gone.webm").
Proof.
  rewrite (@missing_staged_file _ ok_whisper ghost_tempfile ok_service upload
             None unloaded world0 world0 "/tmp/gone.webm" eq_refl eq_refl).
  - reflexivity.
  - change ("/tmp/gone.webm" ∉ ({["a.wav"]} : gset string)).
    by intros [=]%elem_of_singleton.
Defined.

Lemma failing_loader_retried_every_call_witness :
  count_loads (trace (@ensure_calls _ oom_whisper 5 unloaded)) = 5.
Proof.
  apply (@failing_loader_retried_every_call _ oom_whisper 5 unloaded);
    [|reflexivity].
  intros size w. by exists w, MemoryError.
Defined.

Lemma returned_callers_find_service_witness :
  is_Some (_service (stt_service (Interleaving.shared
    (@Interleaving.run _ ok_whisper [0; 1; 0; 1; 0]
       (Interleaving.first_callers 2 unloaded))))).
Proof.
  exact (@returned_callers_find_service _ ok_whisper 2 [0; 1; 0; 1; 0] unloaded
           0 eq_refl).
Defined.

Lemma loaded_handle_ignores_callers_witness :
  Interleaving.shared
    (@Interleaving.run _ ok_whisper [0; 1; 2; 0; 1; 2]
       (Interleaving.first_callers 3 loaded_ok))
  = loaded_ok.
Proof.
  apply (@loaded_handle_ignores_callers _ ok_whisper 3 [0; 1; 2; 0; 1; 2] loaded_ok).
  by eexists.
Defined.

End MoreWitnesses.
